(** * AQI dashboard pipeline: record cleaners, AQI categorisation and the
      combined backfill, embedded from the Python sources

    - [src/inference/predictor.py]: [categorize_aqi], [generate_aqi_alert]
    - [src/src/feature_engineering/cleaning.py]: [_is_nan],
      [clean_weather_record], [clean_pollutant_record]
    - [src/src/backfill/combined_backfill.py]: [run_combined_backfill]

    Python dictionaries with string keys are [gmap string pyval]; the two
    dictionaries keyed by timestamps keep Python's insertion order, which
    [min] observes, and are association lists with unique keys. *)

From Stdlib Require Import QArith Qround Lqa.
From stdpp Require Import gmap strings list fin_maps pretty sorting.

Local Close Scope Q_scope.
Local Open Scope Z_scope.

(** ** Python values *)

Module Py.

(** A Python [float]: a finite value (every finite binary64 number is a
    rational, and the code below only compares floats, selects one of two
    operands, truncates and prints them), the two infinities, or NaN. *)
Inductive pyfloat : Type :=
  | Fin (q : Q)
  | PInf
  | NInf
  | NaN.

(** [a < b] on floats; every comparison with NaN is false. *)
Definition flt_lt (a b : pyfloat) : bool :=
  match a, b with
  | NaN, _ | _, NaN => false
  | Fin x, Fin y => negb (Qle_bool y x)
  | Fin _, PInf => true
  | NInf, Fin _ => true
  | NInf, PInf => true
  | _, _ => false
  end.

(** [a <= b] on floats. *)
Definition flt_le (a b : pyfloat) : bool :=
  match a, b with
  | NaN, _ | _, NaN => false
  | Fin x, Fin y => Qle_bool x y
  | NInf, _ => true
  | _, PInf => true
  | _, _ => false
  end.

Definition flt_of_Z (z : Z) : pyfloat := Fin (inject_Z z).

(** The values a record field can hold.  [VList] stands for the objects that
    are not numbers (lists and the like): [float()] and [int()] raise
    [TypeError] on them. *)
#[local] Set Warnings "-register-all".
Inductive pyval : Type :=
  | VNone
  | VBool (b : bool)
  | VInt (z : Z)
  | VFloat (f : pyfloat)
  | VStr (s : string)
  | VList (xs : list pyval).

Definition is_None (v : pyval) : bool :=
  match v with VNone => true | _ => false end.

(** Python truthiness, as used by [if raw_p and raw_p.get("timestamp")]. *)
Definition truthy (v : pyval) : bool :=
  match v with
  | VNone => false
  | VBool b => b
  | VInt z => negb (z =? 0)
  | VFloat (Fin q) => negb (Qeq_bool q (0 # 1))
  | VFloat _ => true
  | VStr s => negb (String.eqb s "")
  | VList xs => match xs with [] => false | _ => true end
  end.

(** The operands of the builtin [min] and [max] in the cleaners: an [int]
    constant or a [float]. *)
Inductive pynum : Type :=
  | NInt (z : Z)
  | NFloat (f : pyfloat).

Definition num_val (n : pynum) : pyfloat :=
  match n with NInt z => flt_of_Z z | NFloat f => f end.

Definition of_num (n : pynum) : pyval :=
  match n with NInt z => VInt z | NFloat f => VFloat f end.

(** Python compares an [int] with a [float] by their exact values. *)
Definition num_lt (a b : pynum) : bool := flt_lt (num_val a) (num_val b).

(** [min(a, b)]: the first argument is kept unless the second is strictly
    smaller. *)
Definition py_min (a b : pynum) : pynum := if num_lt b a then b else a.

(** [max(a, b)]: the first argument is kept unless the second is strictly
    greater. *)
Definition py_max (a b : pynum) : pynum := if num_lt a b then b else a.

(** [float(z)] for an [int]: round to nearest, ties to even, on 53 bits;
    [OverflowError] (here [None]) from 2^1024 on. *)
Definition int_to_float (z : Z) : option pyfloat :=
  let a := Z.abs z in
  if a <? 2 ^ 53 then Some (flt_of_Z z)
  else
    let e := Z.log2 a - 52 in
    let q := a / 2 ^ e in
    let r := a mod 2 ^ e in
    let half := 2 ^ (e - 1) in
    let q' := if (half <? r) || ((r =? half) && Z.odd q) then q + 1 else q in
    let m := q' * 2 ^ e in
    if 2 ^ 1024 <=? m then None else Some (flt_of_Z (Z.sgn z * m)).

(** Truncation towards zero, [int(x)] for a finite float. *)
Definition Qtrunc (q : Q) : Z := Z.quot (Qnum q) (Zpos (Qden q)).

(** The two builtin conversions from text, [float(s)] and [int(s)], are
    taken as they come: [None] is [ValueError]. *)
Class PyParsers : Type := {
  float_of_str : string → option pyfloat;
  int_of_str : string → option Z
}.

Section Conversions.
Context `{PyParsers}.

(** [float(v)]; [None] when Python raises. *)
Definition py_float (v : pyval) : option pyfloat :=
  match v with
  | VNone => None
  | VBool b => Some (flt_of_Z (if b then 1 else 0))
  | VInt z => int_to_float z
  | VFloat f => Some f
  | VStr s => float_of_str s
  | VList _ => None
  end.

(** [int(v)]; [None] when Python raises ([ValueError] on NaN,
    [OverflowError] on an infinity, [TypeError] on [None] or a list). *)
Definition py_int (v : pyval) : option Z :=
  match v with
  | VNone => None
  | VBool b => Some (if b then 1 else 0)
  | VInt z => Some z
  | VFloat (Fin q) => Some (Qtrunc q)
  | VFloat _ => None
  | VStr s => int_of_str s
  | VList _ => None
  end.
End Conversions.

(** Round to the nearest integer, ties to even: what the format
    specification [.0f] prints. *)
Definition round_half_even (q : Q) : Z :=
  let f := Qfloor q in
  match Qcompare (q - inject_Z f)%Q (1 # 2) with
  | Lt => f
  | Gt => f + 1
  | Eq => if Z.even f then f else f + 1
  end.

(** [format(x, ".0f")]. *)
Definition format_0f (x : pyfloat) : string :=
  match x with
  | Fin q =>
      let n := round_half_even q in
      if negb (Qle_bool (0 # 1) q) && (n =? 0) then "-0" else pretty n
  | PInf => "inf"
  | NInf => "-inf"
  | NaN => "nan"
  end.

(** [needle in hay] on strings. *)
Fixpoint str_contains (needle hay : string) : bool :=
  String.prefix needle hay ||
  match hay with
  | EmptyString => false
  | String _ rest => str_contains needle rest
  end.

End Py.

Export Py.

Abbreviation record := (gmap string pyval).

(** [d.get(k)]: [None] when the key is absent. *)
Definition dict_get (d : record) (k : string) : pyval := default VNone (d !! k).

(** ** src/inference/predictor.py *)

Module Predictor.

Record aqi_info : Type := {
  category : string;
  level : Z;
  color : string;
  message : string;
  is_hazardous : bool
}.

Definition categorize_aqi (aqi_value : pyfloat) : aqi_info :=
  if flt_le aqi_value (flt_of_Z 50) then
    {| category := "Good";
       level := 1;
       color := "#00e400";
       message := "Air quality is satisfactory, and air pollution poses little or no risk.";
       is_hazardous := false |}
  else if flt_le aqi_value (flt_of_Z 100) then
    {| category := "Moderate";
       level := 2;
       color := "#ffff00";
       message := "Air quality is acceptable. However, there may be a risk for some people.";
       is_hazardous := false |}
  else if flt_le aqi_value (flt_of_Z 150) then
    {| category := "Unhealthy for Sensitive Groups";
       level := 3;
       color := "#ff7e00";
       message := "Members of sensitive groups may experience health effects.";
       is_hazardous := false |}
  else if flt_le aqi_value (flt_of_Z 200) then
    {| category := "Unhealthy";
       level := 4;
       color := "#ff0000";
       message := "Some members of the general public may experience health effects.";
       is_hazardous := true |}
  else if flt_le aqi_value (flt_of_Z 300) then
    {| category := "Very Unhealthy";
       level := 5;
       color := "#8f3f97";
       message := "Health alert: The risk of health effects is increased for everyone.";
       is_hazardous := true |}
  else
    {| category := "Hazardous";
       level := 6;
       color := "#7e0023";
       message := "⚠️ HEALTH WARNING: Everyone may experience serious health effects.";
       is_hazardous := true |}.

Definition generate_aqi_alert (aqi_value : pyfloat) : option string :=
  let info := categorize_aqi aqi_value in
  if is_hazardous info then
    Some ("🚨 ALERT: Air quality is " +:+ category info +:+ " (AQI: "
          +:+ format_0f aqi_value +:+ "). " +:+ message info)
  else None.

End Predictor.

(** ** src/src/feature_engineering/cleaning.py *)

Module Cleaning.

(** [isinstance(x, float) and math.isnan(x)] *)
Definition _is_nan (x : pyval) : bool :=
  match x with VFloat NaN => true | _ => false end.

(** The loop [for k, v in list(out.items()): if _is_nan(v): out[k] = None]. *)
Definition replace_nan (out : record) : record :=
  (λ v, if _is_nan v then VNone else v) <$> out.

Definition concentration_keys : list string :=
  ["co"; "no"; "no2"; "o3"; "so2"; "pm2_5"; "pm10"; "nh3"].

Section WithParsers.
Context `{PyParsers}.

Definition clean_weather_record (rec : record) : record :=
  let out := rec in
  (* Clip humidity to [0,100] *)
  let h := dict_get out "humidity" in
  let out :=
    if is_None h then out
    else
      match py_float h with
      | Some f =>
          <["humidity" := of_num (py_max (NInt 0) (py_min (NInt 100) (NFloat f)))]> out
      | None => <["humidity" := VNone]> out
      end in
  (* Visibility non-negative *)
  let vis := dict_get out "visibility" in
  let out :=
    if is_None vis then out
    else
      match py_float vis with
      | Some f =>
          <["visibility" := of_num (py_max (NFloat (flt_of_Z 0)) (NFloat f))]> out
      | None => <["visibility" := VNone]> out
      end in
  (* Replace NaN with None *)
  replace_nan out.

(** One turn of the loop over the concentration keys. *)
Definition clamp_concentration (out : record) (k : string) : record :=
  let v := dict_get out k in
  if is_None v then out
  else
    match py_float v with
    | Some f => <[k := of_num (py_max (NFloat (flt_of_Z 0)) (NFloat f))]> out
    | None => <[k := VNone]> out
    end.

Definition clean_pollutant_record (rec : record) : record :=
  let out := rec in
  (* Replace NaN with None first *)
  let out := replace_nan out in
  (* Non-negative for concentrations *)
  let out := foldl clamp_concentration out concentration_keys in
  (* AQI in 1..5 if present *)
  let aqi := dict_get out "aqi" in
  if is_None aqi then out
  else
    match py_int aqi with
    | Some aqi_i =>
        <["aqi" := if (1 <=? aqi_i) && (aqi_i <=? 5) then VInt aqi_i else VNone]> out
    | None => <["aqi" := VNone]> out
    end.
End WithParsers.

End Cleaning.

(** ** src/src/backfill/combined_backfill.py *)

Module Backfill.
Import Cleaning.

(** *** Dictionaries keyed by timestamps

    [weather_by_ts] and [pollutant_by_ts] are [Dict[int, Dict[str, Any]]].
    A Python dictionary iterates in insertion order, and assigning to a key
    that is present replaces its value where it stands. *)
Abbreviation tsdict := (list (Z * record)).

Fixpoint tsdict_set (d : tsdict) (k : Z) (v : record) : tsdict :=
  match d with
  | [] => [(k, v)]
  | (k', v') :: d' =>
      if decide (k' = k) then (k', v) :: d' else (k', v') :: tsdict_set d' k v
  end.

Fixpoint tsdict_get (d : tsdict) (k : Z) : option record :=
  match d with
  | [] => None
  | (k', v') :: d' => if decide (k' = k) then Some v' else tsdict_get d' k
  end.

Definition tsdict_keys (d : tsdict) : list Z := d.*1.

(** [rec["timestamp"]].  Timestamps are integer epoch seconds: the keys of
    the two dictionaries are declared [int], and the fetcher is called with
    [dt_unix=target_ts].  The model covers the records whose timestamp is an
    [int] ([has_timestamp] below) and those without the key, where [None]
    stands for the [KeyError].  A timestamp of another type (a float, a
    text) is outside the model: it is read as [None] too, although Python
    would go on with it, so the statements about runs are statements about
    records with integer timestamps. *)
Definition timestamp_of (rec : record) : option Z :=
  match rec !! "timestamp" with
  | Some (VInt ts) => Some ts
  | _ => None
  end.

(** Truth value of a dictionary: non-empty. *)
Definition dict_truthy (d : record) : bool := negb (Nat.eqb (size d) 0).

(** [raw_p and raw_p.get("timestamp")], where [raw_p] is [None] or a
    dictionary. *)
Definition usable (raw_p : option record) : bool :=
  match raw_p with
  | None => false
  | Some r => dict_truthy r && truthy (dict_get r "timestamp")
  end.

(** [min(keys, key=...)] keeps the first of the keys that reach the
    minimum; it raises [ValueError] on no keys at all. *)
Fixpoint min_by_from (key : Z → Z) (best : Z) (rest : list Z) : Z :=
  match rest with
  | [] => best
  | t :: rest' => min_by_from key (if key t <? key best then t else best) rest'
  end.

Definition min_by (key : Z → Z) (keys : list Z) : option Z :=
  match keys with
  | [] => None
  | t :: rest => Some (min_by_from key t rest)
  end.

(** [min(weather_by_ts.keys(), key=lambda t: abs(t - p_ts))] *)
Definition closest_ts (weather_by_ts : tsdict) (p_ts : Z) : option Z :=
  min_by (λ t, Z.abs (t - p_ts)) (tsdict_keys weather_by_ts).

(** [l[max(0, i-10):i] if i > 0 else []] *)
Definition hist_slice (pollutant_records : list record) (hist_index : nat) : list record :=
  if Nat.ltb 0 hist_index
  then drop (hist_index - 10) (take hist_index pollutant_records)
  else [].

(** [sorted(weather_by_ts.items())]: the keys of a dictionary are distinct,
    so the items are ordered by their timestamps alone. *)
Definition item_le (a b : Z * record) : Prop := a.1 ≤ b.1.

#[export] Instance item_le_dec : RelDecision item_le := λ a b, Z_le_dec a.1 b.1.

Definition sorted_items (weather_by_ts : tsdict) : list (Z * record) :=
  merge_sort item_le weather_by_ts.

(** *** The world outside

    The two network fetchers and the two feature computers are not part of
    these sources.  A call of a fetcher either raises or returns; the
    pollutant fetcher is asked once per day and may answer differently each
    time, so its answer depends on the rank of the call (from 0) and on the
    timestamp asked for. *)
Inductive fetched : Type :=
  | FetchRaises
  | FetchReturns (raw_p : option record).

Class FeatureComputers : Type := {
  compute_weather_features : record → record;
  compute_pollutant_features : record → list record → record
}.

(** *** The table

    A [DataFrame] built from a list of dictionaries is the list of its rows;
    its columns are the keys that occur in some row, and a row without a
    key holds NaN there. *)
Abbreviation dataframe := (list record).

Definition has_column (df : dataframe) (c : string) : bool :=
  existsb (λ r, bool_decide (is_Some (r !! c))) df.

(** The value of a row in the [timestamp] column: [None] is NaN, the cell
    of a row without the key or with [None] under it.  The model of the
    column covers cells that are integers or missing ([int_or_missing]
    below); a float or a text there is outside it, and is read as NaN. *)
Definition row_ts (row : record) : option Z := timestamp_of row.

(** The order of [sort_values]: ascending, NaN last. *)
Definition ts_leb (a b : option Z) : bool :=
  match a, b with
  | _, None => true
  | None, Some _ => false
  | Some x, Some y => x <=? y
  end.

Definition ts_eqb (a b : option Z) : bool :=
  match a, b with
  | None, None => true
  | Some x, Some y => x =? y
  | _, _ => false
  end.

Definition row_le (a b : record) : Prop := ts_leb (row_ts a) (row_ts b) = true.

(** [df.sort_values("timestamp")] uses pandas' default sort, which is not
    stable: all that is known of it is that it permutes the rows into
    ascending order. *)
Class SortValues : Type := {
  sort_values : dataframe → dataframe;
  sort_values_perm : ∀ df, sort_values df ≡ₚ df;
  sort_values_sorted : ∀ df, Sorted row_le (sort_values df)
}.

(** [df.drop_duplicates(subset=["timestamp"], keep="last")]: a row is
    dropped when a later row has the same timestamp; the rows that are kept
    stay in order. *)
Fixpoint drop_duplicates_last (df : dataframe) : dataframe :=
  match df with
  | [] => []
  | r :: rest =>
      if existsb (λ r', ts_eqb (row_ts r) (row_ts r')) rest
      then drop_duplicates_last rest
      else r :: drop_duplicates_last rest
  end.

(** *** Effects

    What the run does to the outside, in order.  Of the log lines only the
    final tally is kept. *)
Inductive event : Type :=
  | CallFetchWeather
  | CallFetchPollutant (rank : nat) (dt_unix : Z)
  | Sleep
  | LogTally (success failed : nat)
  | ToCsv (df : dataframe).

(** A computation appends to the trace of events and either yields a value
    or raises. *)
Definition run (A : Type) : Type := list event → option A * list event.

#[export] Instance run_ret : MRet run := λ A a tr, (Some a, tr).

#[export] Instance run_bind : MBind run := λ A B k m tr,
  match m tr with
  | (Some a, tr') => k a tr'
  | (None, tr') => (None, tr')
  end.

Definition raise {A} : run A := λ tr, (None, tr).

Definition emit (e : event) : run unit := λ tr, (Some tt, tr ++ [e]).

(** A subscript that may raise. *)
Definition subscript {A} (o : option A) : run A :=
  match o with Some a => mret a | None => raise end.

Fixpoint for_each {A S} (body : S → A → run S) (st : S) (l : list A) : run S :=
  match l with
  | [] => mret st
  | a :: l' => st' ← body st a; for_each body st' l'
  end.

(** [enumerate(l, start)] *)
Fixpoint enumerate {A} (start : nat) (l : list A) : list (nat * A) :=
  match l with
  | [] => []
  | a :: l' => (start, a) :: enumerate (S start) l'
  end.

(** The state of the loop of step 2. *)
Record fetch_state : Type := {
  pollutant_records : list record;
  success : nat;
  failed : nat
}.

(** What one turn of the loop of step 3 computes. [ms_hist] is the
    [historical_data] handed to [compute_pollutant_features], when it is
    called. *)
Record merge_step : Type := {
  ms_ts : Z;
  ms_pollutant_raw : option record;
  ms_hist : option (list record);
  ms_merged : record
}.

Section Run.
Context `{PyParsers} `{FeatureComputers} `{SortValues}.

(** The fetchers' answers. *)
Variable fetch_openmeteo_bulk : option (list record).
Variable fetch_pollutant_historical : nat → Z → fetched.

(** [for rec in weather_records: weather_by_ts[rec["timestamp"]] = rec] *)
Definition build_weather_by_ts (weather_records : list record) : run tsdict :=
  for_each (λ weather_by_ts rec,
              ts ← subscript (timestamp_of rec);
              mret (tsdict_set weather_by_ts ts rec))
           [] weather_records.

(** One turn of the loop of step 2; [i] counts from 1. *)
Definition fetch_day (st : fetch_state) (iw : nat * record) : run fetch_state :=
  let '(i, weather_rec) := iw in
  target_ts ← subscript (timestamp_of weather_rec);
  emit (CallFetchPollutant (i - 1) target_ts);;
  let st' :=
    match fetch_pollutant_historical (i - 1) target_ts with
    | FetchReturns raw_p =>
        if usable raw_p then
          {| pollutant_records := pollutant_records st ++ option_list raw_p;
             success := success st + 1;
             failed := failed st |}
        else
          {| pollutant_records := pollutant_records st;
             success := success st;
             failed := failed st + 1 |}
    | FetchRaises =>
        {| pollutant_records := pollutant_records st;
           success := success st;
           failed := failed st + 1 |}
    end in
  emit Sleep;;
  mret st'.

Definition fetch_pollutants (weather_records : list record) : run fetch_state :=
  for_each fetch_day
           {| pollutant_records := []; success := 0; failed := 0 |}
           (enumerate 1 weather_records).

(** [for rec in pollutant_records: pollutant_by_ts[closest_ts] = rec] *)
Definition build_pollutant_by_ts (weather_by_ts : tsdict)
    (pollutant_records : list record) : run tsdict :=
  for_each (λ pollutant_by_ts rec,
              p_ts ← subscript (timestamp_of rec);
              closest ← subscript (closest_ts weather_by_ts p_ts);
              mret (tsdict_set pollutant_by_ts closest rec))
           [] pollutant_records.

(** [merged = {**weather_features}], then
    [merged[f"pollutant_{k}"] = v] for every key but ["timestamp"]. *)
Definition merge_features (weather_features pollutant_features : record) : record :=
  map_fold (λ k v merged,
              if decide (k = "timestamp") then merged
              else <["pollutant_" +:+ k := v]> merged)
           weather_features pollutant_features.

(** One turn of the loop of step 3. *)
Definition merge_row (pollutant_by_ts : tsdict) (pollutant_records : list record)
    (i : nat) (ts : Z) (weather_raw : record) : merge_step :=
  let weather_clean := clean_weather_record weather_raw in
  let pollutant_raw := tsdict_get pollutant_by_ts ts in
  let pollutant_clean :=
    match pollutant_raw with
    | Some p => if dict_truthy p then clean_pollutant_record p else ∅
    | None => ∅
    end in
  let weather_features := compute_weather_features weather_clean in
  let hist :=
    if dict_truthy pollutant_clean
    then Some (hist_slice pollutant_records i)
    else None in
  let pollutant_features :=
    match hist with
    | Some h => compute_pollutant_features pollutant_clean h
    | None => ∅
    end in
  {| ms_ts := ts;
     ms_pollutant_raw := pollutant_raw;
     ms_hist := hist;
     ms_merged := merge_features weather_features pollutant_features |}.

Definition merge_steps (weather_by_ts pollutant_by_ts : tsdict)
    (pollutant_records : list record) : list merge_step :=
  (λ '(i, (ts, weather_raw)), merge_row pollutant_by_ts pollutant_records i ts weather_raw)
    <$> enumerate 0 (sorted_items weather_by_ts).

(** [df.sort_values("timestamp").drop_duplicates(subset=["timestamp"],
    keep="last").reset_index(drop=True)] *)
Definition sort_dedup (df : dataframe) : dataframe :=
  drop_duplicates_last (sort_values df).

Definition finish_table (combined_rows : list record) : dataframe :=
  let df := combined_rows in
  if has_column df "timestamp" then sort_dedup df else df.

(** Steps 2 and 3 up to the merged rows, for the weather records that
    step 1 fetched. *)
Definition collect_merge_steps (weather_records : list record)
    : run (list merge_step) :=
  (* Create timestamp -> weather mapping *)
  weather_by_ts ← build_weather_by_ts weather_records;
  (* STEP 2: Fetch pollutant data day by day *)
  st ← fetch_pollutants weather_records;
  emit (LogTally (success st) (failed st));;
  (* Create timestamp -> pollutant mapping *)
  pollutant_by_ts ← build_pollutant_by_ts weather_by_ts (pollutant_records st);
  (* STEP 3: Merge, clean, compute features *)
  mret (merge_steps weather_by_ts pollutant_by_ts (pollutant_records st)).

Definition run_combined_backfill : run dataframe :=
  (* STEP 1: Get all weather data in ONE call *)
  emit CallFetchWeather;;
  match fetch_openmeteo_bulk with
  | None => mret []
  | Some weather_records =>
      steps ← collect_merge_steps weather_records;
      let combined_rows := ms_merged <$> steps in
      let df := finish_table combined_rows in
      emit (ToCsv df);;
      mret df
  end.
End Run.

End Backfill.

(** * Vocabulary of the statements *)

Import Predictor Cleaning Backfill.

(** The numeric value of a cleaned field. *)
Definition val_num (v : pyval) : option pyfloat :=
  match v with
  | VInt z => Some (flt_of_Z z)
  | VFloat f => Some f
  | _ => None
  end.

(** Equality of floats as numbers. *)
Definition flt_eq (a b : pyfloat) : Prop :=
  match a, b with
  | Fin x, Fin y => (x == y)%Q
  | PInf, PInf | NInf, NInf => True
  | _, _ => False
  end.

(** [min] and [max] of two numbers, neither of them NaN. *)
Definition flt_min (a b : pyfloat) : pyfloat := if flt_le a b then a else b.
Definition flt_max (a b : pyfloat) : pyfloat := if flt_le a b then b else a.

(** What a field that is present becomes under
    [try: out[k] = g(float(v)) except Exception: out[k] = None]. *)
Definition clamped `{PyParsers} (g : pyfloat → pynum) (v : pyval) : pyval :=
  if is_None v then v
  else match py_float v with
       | Some f => of_num (g f)
       | None => VNone
       end.

Definition nan_to_none (v : pyval) : pyval := if _is_nan v then VNone else v.

(** What an [aqi] field that is present becomes. *)
Definition aqi_checked `{PyParsers} (aqi : pyval) : pyval :=
  if is_None aqi then aqi
  else match py_int aqi with
       | Some aqi_i => if (1 <=? aqi_i) && (aqi_i <=? 5) then VInt aqi_i else VNone
       | None => VNone
       end.

(** Parsers that reject every text: enough to run the cleaners on records
    that hold no text at all. *)
Definition no_text : PyParsers :=
  {| float_of_str := λ _, None; int_of_str := λ _, None |}.

(** The loops that fill [weather_by_ts] and [pollutant_by_ts], without the
    trace: the record [r] is stored under [key r], and the loop raises as
    soon as [key r] does. *)
Fixpoint index_by (key : record → option Z) (d : tsdict) (l : list record)
    : option tsdict :=
  match l with
  | [] => Some d
  | r :: l' =>
      match key r with
      | Some k => index_by key (tsdict_set d k r) l'
      | None => None
      end
  end.

(** The weather timestamp a pollutant record is matched to. *)
Definition closest_of (weather_by_ts : tsdict) (rec : record) : option Z :=
  match timestamp_of rec with
  | Some p_ts => closest_ts weather_by_ts p_ts
  | None => None
  end.

Definition has_timestamp (rec : record) : Prop := is_Some (timestamp_of rec).

(** The record that the fetch of one day adds to [pollutant_records], if
    any: the days are numbered from 1, the calls from 0. *)
Definition day_record (fetch : nat → Z → fetched) (iw : nat * record)
    : option record :=
  match timestamp_of iw.2 with
  | Some ts =>
      match fetch (iw.1 - 1)%nat ts with
      | FetchReturns raw_p => if usable raw_p then raw_p else None
      | FetchRaises => None
      end
  | None => None
  end.

(** The events of the loop of step 2 over the given days. *)
Definition fetch_trace (days : list (nat * record)) : list event :=
  days ≫= λ iw,
    match timestamp_of iw.2 with
    | Some ts => [CallFetchPollutant (iw.1 - 1) ts; Sleep]
    | None => []
    end.

(** The state in which the loop of step 2 leaves, from [st], over the
    given days. *)
Definition fetch_result (fetch : nat → Z → fetched) (st : fetch_state)
    (days : list (nat * record)) : fetch_state :=
  let got := omap (day_record fetch) days in
  {| pollutant_records := pollutant_records st ++ got;
     success := success st + length got;
     failed := failed st + (length days - length got) |}.

(** Sample data: a day of weather and a pollutant reading at a timestamp,
    and feature computers that keep every field and record how long the
    history handed to them is. *)
Definition weather_at (ts : Z) : record :=
  {[ "timestamp" := VInt ts; "humidity" := VInt 40 ]}.

Definition pollutant_at (ts : Z) : record :=
  {[ "timestamp" := VInt ts; "co" := VFloat (Fin (5 # 2)) ]}.

Definition keep_features : FeatureComputers :=
  {| compute_weather_features := λ rec, rec;
     compute_pollutant_features := λ rec historical_data,
       <["n_history" := VInt (Z.of_nat (length historical_data))]> rec |}.

(** A pollutant fetcher whose first call raises and whose later calls
    return the reading at the timestamp asked for. *)
Definition first_day_fails : nat → Z → fetched :=
  λ rank dt_unix,
    match rank with
    | O => FetchRaises
    | S _ => FetchReturns (Some (pollutant_at dt_unix))
    end.

(** Of a turn of the loop of step 3: the timestamp, the matched record and
    the history. *)
Definition step_view (s : merge_step) : Z * option record * option (list record) :=
  (ms_ts s, ms_pollutant_raw s, ms_hist s).

(** Whether a run returned. *)
Definition is_Some_proj {A} (o : option A) : bool :=
  match o with Some _ => true | None => false end.

(** Ten days of weather, a day apart, and a pollutant fetcher that fails on
    the calls of rank 2, 5 and 7. *)
Definition ten_days : list record :=
  (λ d, weather_at (86400 * Z.of_nat d)) <$> seq 1 10.

Definition three_days_fail : nat → Z → fetched :=
  λ rank dt_unix,
    if (Nat.eqb rank 2 || Nat.eqb rank 5 || Nat.eqb rank 7)%bool
    then FetchRaises
    else FetchReturns (Some (pollutant_at dt_unix)).

Definition is_tally (e : event) : bool :=
  match e with LogTally _ _ => true | _ => false end.

(** The cells that the model of the [timestamp] column covers: nothing (no
    key, or [None]), which the table holds as NaN, or an integer that a
    float holds exactly, since the column holds floats as soon as one of
    its cells is missing. *)
Definition int_or_missing (cell : option pyval) : Prop :=
  match cell with
  | None | Some VNone => True
  | Some (VInt ts) => Is_true (Z.abs ts <=? 2 ^ 53)
  | Some _ => False
  end.

(** A sort that leaves rows of equal timestamps in the order they came in,
    as [sort_values] does with [kind="stable"]. *)
Definition stable_sort `{SortValues} : Prop :=
  ∀ (df : dataframe) (k : option Z),
    filter (λ r, row_ts r = k) (sort_values df) = filter (λ r, row_ts r = k) df.

(** Feature computers that stamp a row with the start of its day and keep
    the time of the observation beside it: two observations of one day
    give two rows with one timestamp. *)
Definition day_start_features : FeatureComputers :=
  {| compute_weather_features := λ rec,
       match timestamp_of rec with
       | Some ts =>
           <["timestamp" := VInt (ts / 86400 * 86400)]>
             (<["observed_at" := VInt ts]> rec)
       | None => rec
       end;
     compute_pollutant_features := λ rec historical_data, rec |}.

(** Feature computers that note, as a lag feature does, the timestamp of
    the last record of the history handed to them. *)
Definition lag_features : FeatureComputers :=
  {| compute_weather_features := λ rec, rec;
     compute_pollutant_features := λ rec historical_data,
       match last historical_data with
       | Some previous => <["lag_timestamp" := dict_get previous "timestamp"]> rec
       | None => rec
       end |}.

(** A pollutant fetcher that answers with the reading it holds nearest to
    the day asked for: readings at 190, 205 and 290 seconds for days at 100,
    200 and 300. *)
Definition nearby_readings : nat → Z → fetched :=
  λ rank dt_unix,
    FetchReturns (Some (pollutant_at match rank with
                                     | O => 190
                                     | S O => 205
                                     | S (S _) => 290
                                     end)).

(** Of a turn of the loop of step 3: what [step_view] shows, and the lag
    feature of the merged row. *)
Definition step_lag (s : merge_step)
    : Z * option record * option (list record) * option pyval :=
  (step_view s, ms_merged s !! "pollutant_lag_timestamp").

(** * Properties *)

(** ** Comparisons of floats *)

Lemma flt_le_Fin (x y : Q) : flt_le (Fin x) (Fin y) = true ↔ (x <= y)%Q.
Proof. apply Qle_bool_iff. Qed.

Lemma flt_le_Fin_false (x y : Q) : flt_le (Fin x) (Fin y) = false ↔ (y < x)%Q.
Proof.
  simpl. rewrite <- not_true_iff_false, Qle_bool_iff. split.
  - apply Qnot_le_lt.
  - apply Qlt_not_le.
Qed.

Lemma flt_lt_Fin (x y : Q) : flt_lt (Fin x) (Fin y) = true ↔ (x < y)%Q.
Proof.
  simpl. rewrite negb_true_iff. apply (flt_le_Fin_false y x).
Qed.

Lemma flt_lt_Fin_false (x y : Q) : flt_lt (Fin x) (Fin y) = false ↔ (y <= x)%Q.
Proof. simpl. rewrite negb_false_iff. apply Qle_bool_iff. Qed.

(** ** categorize_aqi and generate_aqi_alert *)

(** Case analysis on the chain of comparisons of [categorize_aqi] at a
    finite value. *)
Ltac aqi_bands q :=
  cbv [categorize_aqi flt_of_Z flt_le];
  repeat match goal with
         | |- context [Qle_bool q (inject_Z ?b)] =>
             let E := fresh "E" in
             destruct (Qle_bool q (inject_Z b)) eqn:E;
             [apply (flt_le_Fin q) in E | apply (flt_le_Fin_false q) in E];
             unfold inject_Z in E
         end;
  simpl.

Lemma categorize_aqi_level (x : pyfloat) :
  1 ≤ level (categorize_aqi x) ≤ 6 ∧
  is_hazardous (categorize_aqi x) = (4 <=? level (categorize_aqi x)).
Proof.
  unfold categorize_aqi.
  repeat match goal with
         | |- context [if ?c then _ else _] => destruct c
         end; simpl; split; (lia || reflexivity).
Qed.

Lemma is_hazardous_Fin (q : Q) :
  is_hazardous (categorize_aqi (Fin q)) = true ↔ (150 < q)%Q.
Proof.
  aqi_bands q; split; intros; try discriminate; try reflexivity; lra.
Qed.

(** C2: [categorize_aqi] is a function defined on every float; a real
    value falls in exactly one of the six bands, a boundary going to the
    lower band, each band has its label and its level from 1 to 6, and the
    hazard flag is set exactly from level 4 on. *)
Theorem categorize_aqi_bands :
  (∀ q : Q,
     let info := categorize_aqi (Fin q) in
     ((q <= 50)%Q ∧ category info = "Good" ∧ level info = 1) ∨
     ((50 < q)%Q ∧ (q <= 100)%Q ∧ category info = "Moderate" ∧ level info = 2) ∨
     ((100 < q)%Q ∧ (q <= 150)%Q ∧
        category info = "Unhealthy for Sensitive Groups" ∧ level info = 3) ∨
     ((150 < q)%Q ∧ (q <= 200)%Q ∧ category info = "Unhealthy" ∧ level info = 4) ∨
     ((200 < q)%Q ∧ (q <= 300)%Q ∧ category info = "Very Unhealthy" ∧ level info = 5) ∨
     ((300 < q)%Q ∧ category info = "Hazardous" ∧ level info = 6)) ∧
  (∀ x : pyfloat,
     1 ≤ level (categorize_aqi x) ≤ 6 ∧
     (is_hazardous (categorize_aqi x) = true ↔ 4 ≤ level (categorize_aqi x))) ∧
  category (categorize_aqi (Fin 50)) = "Good" ∧
  category (categorize_aqi (Fin (5001 # 100))) = "Moderate".
Proof.
  split; [| split; [| split; reflexivity]].
  - intros q info. subst info. aqi_bands q.
    + left. repeat split; lra.
    + right; left. repeat split; lra.
    + do 2 right; left. repeat split; lra.
    + do 3 right; left. repeat split; lra.
    + do 4 right; left. repeat split; lra.
    + do 5 right. repeat split; lra.
  - intros x. destruct (categorize_aqi_level x) as [Hlevel ->].
    split; [exact Hlevel | apply Z.leb_le].
Qed.

Lemma generate_aqi_alert_hazardous (x : pyfloat) :
  (∃ s, generate_aqi_alert x = Some s ∧ s ≠ "") ↔
  is_hazardous (categorize_aqi x) = true.
Proof.
  unfold generate_aqi_alert.
  destruct (is_hazardous (categorize_aqi x)); split.
  - reflexivity.
  - intros _. eexists. split; [reflexivity | discriminate].
  - intros (s & E & _). discriminate.
  - discriminate.
Qed.

(** C1, as the code has it: an alert is returned exactly when the hazard
    flag of [categorize_aqi] is set, which for a real value is above 150
    (the band "Unhealthy" is hazardous too); 150 gives no alert and 250 an
    alert that names "Very Unhealthy". *)
Theorem generate_aqi_alert_iff_above_150 :
  (∀ x : pyfloat,
     (∃ s, generate_aqi_alert x = Some s ∧ s ≠ "") ↔
     is_hazardous (categorize_aqi x) = true) ∧
  (∀ x : pyfloat,
     is_hazardous (categorize_aqi x) = false ↔ generate_aqi_alert x = None) ∧
  (∀ q : Q, is_hazardous (categorize_aqi (Fin q)) = true ↔ (150 < q)%Q) ∧
  generate_aqi_alert (Fin 150) = None ∧
  (∃ s, generate_aqi_alert (Fin 250) = Some s ∧
        str_contains "Very Unhealthy" s = true).
Proof.
  split; [exact generate_aqi_alert_hazardous |].
  split.
  { intros x. unfold generate_aqi_alert.
    destruct (is_hazardous (categorize_aqi x)); split; congruence. }
  split; [exact is_hazardous_Fin |].
  split; [reflexivity |].
  eexists. split; [reflexivity | vm_compute; reflexivity].
Qed.

(** C1 as stated fails at 175: the value is not above 200, yet the band
    "Unhealthy" is flagged hazardous and an alert is returned. *)
Lemma generate_aqi_alert_175 :
  generate_aqi_alert (Fin 175) =
    Some "🚨 ALERT: Air quality is Unhealthy (AQI: 175). Some members of the general public may experience health effects." ∧
  is_hazardous (categorize_aqi (Fin 175)) = true ∧
  ¬ (200 < 175)%Q ∧
  ¬ (∀ q : Q, is_hazardous (categorize_aqi (Fin q)) = true ↔ (200 < q)%Q).
Proof.
  split; [vm_compute; reflexivity |].
  split; [reflexivity |].
  split; [intros E; discriminate E |].
  intros Hall. destruct (Hall 175%Q) as [Hto _].
  specialize (Hto eq_refl). discriminate Hto.
Qed.

(** ** The record cleaners *)

Section CleaningFacts.
Context `{PyParsers}.

Lemma replace_nan_lookup (out : record) (k : string) :
  replace_nan out !! k = nan_to_none <$> out !! k.
Proof. unfold replace_nan. apply lookup_fmap. Qed.

(** The pattern [v = out.get(k)], [if v is not None: try ... except ...]
    at any key. *)
Lemma try_clamp_lookup (g : pyfloat → pynum) (out : record) (k k' : string) :
  (if is_None (dict_get out k) then out
   else match py_float (dict_get out k) with
        | Some f => <[k := of_num (g f)]> out
        | None => <[k := VNone]> out
        end) !! k' =
  if decide (k = k') then clamped g <$> out !! k else out !! k'.
Proof.
  unfold clamped, dict_get.
  destruct (out !! k) as [v|] eqn:Hk; simpl.
  - destruct (is_None v) eqn:Hv.
    + case_decide; subst; [by rewrite Hk | done].
    + destruct (py_float v); rewrite lookup_insert; by case_decide.
  - case_decide; subst; [by rewrite Hk | done].
Qed.

Lemma try_aqi_lookup (out : record) (k k' : string) :
  (if is_None (dict_get out k) then out
   else match py_int (dict_get out k) with
        | Some aqi_i =>
            <[k := if (1 <=? aqi_i) && (aqi_i <=? 5) then VInt aqi_i else VNone]> out
        | None => <[k := VNone]> out
        end) !! k' =
  if decide (k = k') then aqi_checked <$> out !! k else out !! k'.
Proof.
  unfold aqi_checked, dict_get.
  destruct (out !! k) as [v|] eqn:Hk; simpl.
  - destruct (is_None v) eqn:Hv.
    + case_decide; subst; [by rewrite Hk | done].
    + destruct (py_int v); rewrite lookup_insert; by case_decide.
  - case_decide; subst; [by rewrite Hk | done].
Qed.

Lemma clamp_concentration_lookup (out : record) (k k' : string) :
  clamp_concentration out k !! k' =
  if decide (k = k')
  then clamped (λ f, py_max (NFloat (flt_of_Z 0)) (NFloat f)) <$> out !! k
  else out !! k'.
Proof. apply try_clamp_lookup. Qed.

Lemma foldl_clamp_other (ks : list string) (out : record) (k : string) :
  k ∉ ks → foldl clamp_concentration out ks !! k = out !! k.
Proof.
  revert out. induction ks as [|k0 ks IH]; intros out Hk; simpl; [done |].
  apply not_elem_of_cons in Hk as [Hne Hk].
  rewrite IH by done. rewrite clamp_concentration_lookup.
  by case_decide; subst.
Qed.

Lemma foldl_clamp_in (ks : list string) (out : record) (k : string) :
  NoDup ks → k ∈ ks →
  foldl clamp_concentration out ks !! k =
  clamped (λ f, py_max (NFloat (flt_of_Z 0)) (NFloat f)) <$> out !! k.
Proof.
  revert out. induction ks as [|k0 ks IH]; intros out Hnd Hk; simpl.
  - by apply elem_of_nil in Hk.
  - apply NoDup_cons in Hnd as [Hk0 Hnd].
    destruct (decide (k = k0)) as [->|Hne].
    + rewrite foldl_clamp_other by done.
      rewrite clamp_concentration_lookup. by case_decide.
    + apply elem_of_cons in Hk as [?|Hk]; [done |].
      rewrite IH by done. rewrite clamp_concentration_lookup.
      case_decide; [by subst | done].
Qed.

Lemma concentration_keys_NoDup : NoDup concentration_keys.
Proof. apply (bool_decide_unpack _). by vm_compute. Qed.

Lemma aqi_not_concentration : "aqi" ∉ concentration_keys.
Proof. apply (bool_decide_unpack _). by vm_compute. Qed.

(** The fields of [clean_pollutant_record], key by key. *)
Lemma clean_pollutant_record_concentration (rec : record) (k : string) :
  k ∈ concentration_keys →
  clean_pollutant_record rec !! k =
  clamped (λ f, py_max (NFloat (flt_of_Z 0)) (NFloat f)) <$>
    (nan_to_none <$> rec !! k).
Proof.
  intros Hk. unfold clean_pollutant_record.
  rewrite try_aqi_lookup. case_decide as Hne.
  - subst k. by destruct aqi_not_concentration.
  - rewrite foldl_clamp_in by (done || apply concentration_keys_NoDup).
    by rewrite replace_nan_lookup.
Qed.

Lemma clean_pollutant_record_aqi (rec : record) :
  clean_pollutant_record rec !! "aqi" =
  aqi_checked <$> (nan_to_none <$> rec !! "aqi").
Proof.
  unfold clean_pollutant_record.
  rewrite try_aqi_lookup. case_decide; [| done].
  rewrite foldl_clamp_other by apply aqi_not_concentration.
  by rewrite replace_nan_lookup.
Qed.

(** The fields of [clean_weather_record], key by key. *)
Lemma clean_weather_record_lookup (rec : record) (k : string) :
  clean_weather_record rec !! k =
  nan_to_none <$>
    (if decide (k = "humidity") then
       clamped (λ f, py_max (NInt 0) (py_min (NInt 100) (NFloat f))) <$> rec !! k
     else if decide (k = "visibility") then
       clamped (λ f, py_max (NFloat (flt_of_Z 0)) (NFloat f)) <$> rec !! k
     else rec !! k).
Proof.
  unfold clean_weather_record. rewrite replace_nan_lookup. f_equal.
  rewrite (try_clamp_lookup (λ f, py_max (NFloat (flt_of_Z 0)) (NFloat f))).
  destruct (decide (k = "visibility")) as [->|Hvis].
  - rewrite decide_True by done. rewrite decide_False by done.
    by rewrite try_clamp_lookup, decide_False.
  - rewrite decide_False by done.
    rewrite try_clamp_lookup.
    destruct (decide (k = "humidity")) as [->|Hhum].
    + by rewrite decide_True.
    + by rewrite decide_False.
Qed.
End CleaningFacts.

Section CleaningClaims.
Context `{PyParsers}.

Lemma not_nan_to_none (v : pyval) (f : pyfloat) :
  py_float v = Some f → f ≠ NaN → nan_to_none v = v.
Proof.
  intros Hf Hnan. unfold nan_to_none.
  destruct v as [| | |[]| |]; simpl in *; try done. congruence.
Qed.

Lemma clamped_float (g : pyfloat → pynum) (v : pyval) (f : pyfloat) :
  py_float v = Some f → clamped g v = of_num (g f).
Proof.
  intros Hf. unfold clamped. rewrite Hf.
  by destruct v.
Qed.

Lemma clamped_unparseable (g : pyfloat → pynum) (v : pyval) :
  py_float v = None → clamped g v = VNone.
Proof. intros Hf. unfold clamped. rewrite Hf. by destruct v. Qed.

(** [max(0, min(100, f))] as the code computes it against
    [min(100, max(0, f))]. *)
Lemma humidity_clamp_value (f : pyfloat) :
  f ≠ NaN →
  let n := py_max (NInt 0) (py_min (NInt 100) (NFloat f)) in
  nan_to_none (of_num n) = of_num n ∧
  val_num (of_num n) = Some (num_val n) ∧
  flt_eq (num_val n) (flt_min (Fin 100) (flt_max (Fin 0) f)) ∧
  flt_le (Fin 0) (num_val n) = true ∧
  flt_le (num_val n) (Fin 100) = true.
Proof.
  intros Hnan. destruct f as [q| | |]; [| by vm_compute..| done].
  cbv [py_max py_min num_lt num_val flt_of_Z flt_min flt_max].
  destruct (flt_lt (Fin q) (Fin (inject_Z 100))) eqn:E100;
    [apply flt_lt_Fin in E100 | apply flt_lt_Fin_false in E100];
    cbv [num_val flt_of_Z].
  - destruct (flt_lt (Fin (inject_Z 0)) (Fin q)) eqn:E0;
      [apply flt_lt_Fin in E0 | apply flt_lt_Fin_false in E0];
      cbv [of_num val_num num_val flt_of_Z nan_to_none _is_nan];
      destruct (flt_le (Fin 0) (Fin q)) eqn:L0;
      [apply flt_le_Fin in L0 | apply flt_le_Fin_false in L0
      |apply flt_le_Fin in L0 | apply flt_le_Fin_false in L0];
      unfold inject_Z in *;
      try (exfalso; lra);
      repeat split; try reflexivity;
      try (destruct (flt_le (Fin 100) (Fin q)) eqn:L100;
           [apply flt_le_Fin in L100 | apply flt_le_Fin_false in L100]);
      try (destruct (flt_le (Fin 100) (Fin 0)) eqn:L100';
           [apply flt_le_Fin in L100' | apply flt_le_Fin_false in L100']);
      simpl; rewrite ?Qle_bool_iff; lra.
  - assert (L0 : flt_le (Fin 0) (Fin q) = true) by (apply flt_le_Fin; unfold inject_Z in *; lra).
    assert (L100 : flt_le (Fin 100) (Fin q) = true) by (apply flt_le_Fin; unfold inject_Z in *; lra).
    rewrite L0, L100. by vm_compute.
Qed.

Lemma concentration_clamp_value (f : pyfloat) :
  f ≠ NaN →
  let n := py_max (NFloat (flt_of_Z 0)) (NFloat f) in
  val_num (of_num n) = Some (num_val n) ∧
  flt_eq (num_val n) (flt_max (Fin 0) f) ∧
  flt_le (Fin 0) (num_val n) = true.
Proof.
  intros Hnan. destruct f as [q| | |]; [| by vm_compute..| done].
  cbv [py_max num_lt num_val flt_of_Z flt_max].
  destruct (flt_lt (Fin (inject_Z 0)) (Fin q)) eqn:E0;
    [apply flt_lt_Fin in E0 | apply flt_lt_Fin_false in E0];
    destruct (flt_le (Fin 0) (Fin q)) eqn:L0;
    [apply flt_le_Fin in L0 | apply flt_le_Fin_false in L0
    |apply flt_le_Fin in L0 | apply flt_le_Fin_false in L0];
    unfold inject_Z in *; try (exfalso; lra);
    repeat split; try reflexivity; simpl; rewrite ?Qle_bool_iff; lra.
Qed.

Lemma clean_weather_record_humidity (rec : record) (v : pyval) (f : pyfloat) :
  rec !! "humidity" = Some v → py_float v = Some f → f ≠ NaN →
  ∃ r x,
    clean_weather_record rec !! "humidity" = Some r ∧
    val_num r = Some x ∧
    flt_eq x (flt_min (Fin 100) (flt_max (Fin 0) f)) ∧
    flt_le (Fin 0) x = true ∧ flt_le x (Fin 100) = true.
Proof.
  intros Hv Hf Hnan.
  destruct (humidity_clamp_value f Hnan) as (Hkeep & Hnum & Heq & Hlo & Hhi).
  eexists _, _. split; [| split; [exact Hnum | done]].
  rewrite clean_weather_record_lookup, decide_True, Hv by done.
  simpl. by rewrite (clamped_float _ v f), Hkeep.
Qed.

Lemma clean_pollutant_record_clamp (rec : record) (k : string) (v : pyval)
    (f : pyfloat) :
  k ∈ concentration_keys →
  rec !! k = Some v → py_float v = Some f → f ≠ NaN →
  ∃ r x,
    clean_pollutant_record rec !! k = Some r ∧
    val_num r = Some x ∧
    flt_eq x (flt_max (Fin 0) f) ∧
    flt_le (Fin 0) x = true.
Proof.
  intros Hk Hv Hf Hnan.
  destruct (concentration_clamp_value f Hnan) as (Hnum & Heq & Hlo).
  eexists _, _. split; [| split; [exact Hnum | done]].
  rewrite clean_pollutant_record_concentration, Hv by done.
  simpl. by rewrite (not_nan_to_none v f), (clamped_float _ v f).
Qed.

Lemma clean_weather_record_unparseable (rec : record) (v : pyval) :
  rec !! "humidity" = Some v → py_float v = None →
  clean_weather_record rec !! "humidity" = Some VNone.
Proof.
  intros Hv Hf.
  rewrite clean_weather_record_lookup, decide_True, Hv by done.
  simpl. by rewrite clamped_unparseable.
Qed.

Lemma clean_pollutant_record_unparseable (rec : record) (k : string) (v : pyval) :
  k ∈ concentration_keys → rec !! k = Some v → py_float v = None →
  clean_pollutant_record rec !! k = Some VNone.
Proof.
  intros Hk Hv Hf.
  rewrite clean_pollutant_record_concentration, Hv by done.
  simpl. rewrite clamped_unparseable; [done |].
  unfold nan_to_none. by destruct v as [| | |[]| |].
Qed.
End CleaningClaims.

(** C5: a humidity that converts to a number other than NaN comes out as
    [min(100, max(0, h))], within [0,100]; a concentration as [max(0, c)];
    a value that does not convert comes out missing.  Both cleaners are
    functions defined on every record: each conversion that can raise sits
    in a [try] whose handler stores [None]. *)
Theorem cleaners_clamp `{PyParsers} :
  (∀ (rec : record) v f,
     rec !! "humidity" = Some v → py_float v = Some f → f ≠ NaN →
     ∃ r x,
       clean_weather_record rec !! "humidity" = Some r ∧
       val_num r = Some x ∧
       flt_eq x (flt_min (Fin 100) (flt_max (Fin 0) f)) ∧
       flt_le (Fin 0) x = true ∧ flt_le x (Fin 100) = true) ∧
  (∀ (rec : record) k v f,
     k ∈ concentration_keys →
     rec !! k = Some v → py_float v = Some f → f ≠ NaN →
     ∃ r x,
       clean_pollutant_record rec !! k = Some r ∧
       val_num r = Some x ∧
       flt_eq x (flt_max (Fin 0) f)) ∧
  (∀ (rec : record) v,
     rec !! "humidity" = Some v → v ≠ VNone → py_float v = None →
     clean_weather_record rec !! "humidity" = Some VNone) ∧
  (∀ (rec : record) k v,
     k ∈ concentration_keys →
     rec !! k = Some v → v ≠ VNone → py_float v = None →
     clean_pollutant_record rec !! k = Some VNone) ∧
  clean_weather_record {[ "humidity" := VInt (-5) ]} !! "humidity" = Some (VInt 0) ∧
  clean_weather_record {[ "humidity" := VInt 150 ]} !! "humidity" = Some (VInt 100) ∧
  clean_weather_record {[ "humidity" := VInt 40 ]} !! "humidity"
    = Some (VFloat (Fin 40)) ∧
  clean_pollutant_record {[ "co" := VFloat (Fin (-32 # 10)) ]} !! "co"
    = Some (VFloat (Fin 0)).
Proof.
  split; [exact clean_weather_record_humidity |].
  split.
  { intros rec k v f Hk Hv Hf Hnan.
    destruct (clean_pollutant_record_clamp rec k v f Hk Hv Hf Hnan)
      as (r & x & ? & ? & ? & _).
    by exists r, x. }
  split; [intros rec v Hv _; by apply clean_weather_record_unparseable |].
  split; [intros rec k v Hk Hv _; by apply clean_pollutant_record_unparseable |].
  split; [| split; [| split]].
  - by rewrite clean_weather_record_lookup, decide_True, lookup_singleton_eq.
  - by rewrite clean_weather_record_lookup, decide_True, lookup_singleton_eq.
  - by rewrite clean_weather_record_lookup, decide_True, lookup_singleton_eq.
  - rewrite clean_pollutant_record_concentration, lookup_singleton_eq; [done |].
    apply (bool_decide_unpack _). by vm_compute.
Qed.

(** The clamp of C5 at a humidity of 150 and no text anywhere. *)
Lemma cleaners_clamp_witness :
  ∃ r x,
    @clean_weather_record no_text {[ "humidity" := VInt 150 ]} !! "humidity" = Some r ∧
    val_num r = Some x ∧
    flt_eq x (flt_min (Fin 100) (flt_max (Fin 0) (Fin 150))) ∧
    flt_le (Fin 0) x = true ∧ flt_le x (Fin 100) = true.
Proof.
  apply (proj1 (@cleaners_clamp no_text) {[ "humidity" := VInt 150 ]} (VInt 150)).
  - reflexivity.
  - reflexivity.
  - discriminate.
Defined.

(** C4, as the code has it: an [aqi] that is present and not NaN is put
    through [int()]; the result is stored when it lies in 1..5, and [None]
    is stored when it does not or when the conversion raises.  An integer
    is thus kept exactly when it lies in 1..5. *)
Theorem clean_pollutant_record_aqi_int `{PyParsers} (rec : record) (v : pyval) :
  rec !! "aqi" = Some v → v ≠ VNone → _is_nan v = false →
  clean_pollutant_record rec !! "aqi" =
    Some (match py_int v with
          | Some i => if (1 <=? i) && (i <=? 5) then VInt i else VNone
          | None => VNone
          end) ∧
  (∀ z, v = VInt z →
        (clean_pollutant_record rec !! "aqi" = Some (VInt z) ↔ 1 ≤ z ≤ 5) ∧
        (¬ 1 ≤ z ≤ 5 → clean_pollutant_record rec !! "aqi" = Some VNone)).
Proof.
  intros Hv Hnone Hnan.
  assert (Haqi : clean_pollutant_record rec !! "aqi" =
    Some (match py_int v with
          | Some i => if (1 <=? i) && (i <=? 5) then VInt i else VNone
          | None => VNone
          end)).
  { rewrite clean_pollutant_record_aqi, Hv. simpl.
    unfold nan_to_none. rewrite Hnan. unfold aqi_checked.
    by destruct v. }
  split; [exact Haqi |].
  intros z ->. rewrite Haqi. simpl.
  destruct (Z.leb_spec 1 z), (Z.leb_spec z 5); simpl;
    (split;
     [split; [intros E; try discriminate E; lia | intros; try reflexivity; lia]
     |intros; try reflexivity; lia]).
Qed.

(** C4 at an [aqi] of 3. *)
Lemma clean_pollutant_record_aqi_int_witness :
  @clean_pollutant_record no_text {[ "aqi" := VInt 3 ]} !! "aqi" = Some (VInt 3).
Proof.
  refine (proj1 (@clean_pollutant_record_aqi_int no_text
                   {[ "aqi" := VInt 3 ]} (VInt 3) _ _ _)).
  - reflexivity.
  - discriminate.
  - reflexivity.
Defined.

(** C4 as stated fails at 4.7, whatever the text parsers: the field is
    neither kept nor missing, it becomes 4. *)
Lemma clean_pollutant_record_aqi_4_7 :
  (∀ P : PyParsers,
     @clean_pollutant_record P {[ "aqi" := VFloat (Fin (47 # 10)) ]} !! "aqi"
     = Some (VInt 4)) ∧
  ¬ (∀ (P : PyParsers) (rec : record) (v : pyval),
       rec !! "aqi" = Some v → v ≠ VNone → _is_nan v = false →
       (∀ z, 1 ≤ z ≤ 5 → v ≠ VInt z) →
       @clean_pollutant_record P rec !! "aqi" = Some VNone).
Proof.
  assert (H47 : ∀ P : PyParsers,
    @clean_pollutant_record P {[ "aqi" := VFloat (Fin (47 # 10)) ]} !! "aqi"
    = Some (VInt 4)).
  { intros P. by rewrite clean_pollutant_record_aqi, lookup_singleton_eq. }
  split; [exact H47 |].
  intros Hall.
  assert (Hnone : @clean_pollutant_record no_text
            {[ "aqi" := VFloat (Fin (47 # 10)) ]} !! "aqi" = Some VNone).
  { apply (Hall no_text _ (VFloat (Fin (47 # 10)))).
    - reflexivity.
    - discriminate.
    - reflexivity.
    - discriminate. }
  rewrite H47 in Hnone. discriminate Hnone.
Qed.

(** C3 fails on the code at the two fields it names: [min(100, nan)] is 100
    and [max(0.0, nan)] is 0.0, and both are stored before the loop that
    replaces NaN runs; any other field that holds NaN does come out
    missing. *)
Theorem clean_weather_record_nan `{PyParsers} (rec : record) :
  (rec !! "humidity" = Some (VFloat NaN) →
   clean_weather_record rec !! "humidity" = Some (VInt 100)) ∧
  (rec !! "visibility" = Some (VFloat NaN) →
   clean_weather_record rec !! "visibility" = Some (VFloat (Fin 0))) ∧
  (∀ k, k ≠ "humidity" → k ≠ "visibility" → rec !! k = Some (VFloat NaN) →
        clean_weather_record rec !! k = Some VNone) ∧
  clean_weather_record {[ "humidity" := VFloat NaN ]} !! "humidity" = Some (VInt 100) ∧
  clean_weather_record {[ "visibility" := VFloat NaN ]} !! "visibility"
    = Some (VFloat (Fin 0)).
Proof.
  split; [| split; [| split; [| split]]].
  - intros Hv. by rewrite clean_weather_record_lookup, decide_True, Hv.
  - intros Hv. rewrite clean_weather_record_lookup, decide_False, decide_True, Hv; done.
  - intros k Hh Hvis Hv.
    rewrite clean_weather_record_lookup, !decide_False, Hv; done.
  - by rewrite clean_weather_record_lookup, decide_True, lookup_singleton_eq.
  - rewrite clean_weather_record_lookup, decide_False, decide_True,
      lookup_singleton_eq; done.
Qed.

(** ** Dictionaries keyed by timestamps *)

Lemma tsdict_get_set (d : tsdict) (k k' : Z) (v : record) :
  tsdict_get (tsdict_set d k v) k' =
  if decide (k = k') then Some v else tsdict_get d k'.
Proof.
  induction d as [|[k0 v0] d IH]; simpl.
  - by repeat case_decide.
  - destruct (decide (k0 = k)) as [->|Hne]; simpl.
    + by repeat case_decide.
    + rewrite IH. by repeat case_decide; subst.
Qed.

Lemma tsdict_set_keys (d : tsdict) (k : Z) (v : record) :
  tsdict_keys (tsdict_set d k v) =
  if decide (k ∈ tsdict_keys d) then tsdict_keys d else tsdict_keys d ++ [k].
Proof.
  unfold tsdict_keys. induction d as [|[k0 v0] d IH]; csimpl.
  - done.
  - destruct (decide (k0 = k)) as [->|Hne]; csimpl.
    + rewrite decide_True; [done | left].
    + rewrite IH. destruct (decide (k ∈ d.*1)) as [Hin|Hnin].
      * rewrite decide_True; [done | by right].
      * rewrite decide_False; [done |].
        intros [?|?]%elem_of_cons; congruence.
Qed.

Lemma tsdict_set_NoDup (d : tsdict) (k : Z) (v : record) :
  NoDup (tsdict_keys d) → NoDup (tsdict_keys (tsdict_set d k v)).
Proof.
  intros Hnd. rewrite tsdict_set_keys. case_decide; [done |].
  apply NoDup_app. split; [done |]. split; [| apply NoDup_singleton].
  intros x Hx ->%list_elem_of_singleton. done.
Qed.

Lemma tsdict_set_elem_of_keys (d : tsdict) (k k' : Z) (v : record) :
  k' ∈ tsdict_keys (tsdict_set d k v) ↔ k' = k ∨ k' ∈ tsdict_keys d.
Proof.
  rewrite tsdict_set_keys. case_decide.
  - split; [by right | intros [->|?]; done].
  - rewrite elem_of_app, list_elem_of_singleton. tauto.
Qed.

Lemma tsdict_set_nonempty (d : tsdict) (k : Z) (v : record) :
  tsdict_set d k v ≠ [].
Proof. destruct d as [|[k0 v0] d]; simpl; [done |]. by case_decide. Qed.

Lemma tsdict_get_Some (d : tsdict) (k : Z) (v : record) :
  NoDup (tsdict_keys d) → tsdict_get d k = Some v ↔ (k, v) ∈ d.
Proof.
  unfold tsdict_keys. induction d as [|[k0 v0] d IH]; csimpl; intros Hnd.
  - split; [done | by intros ?%elem_of_nil].
  - apply NoDup_cons in Hnd as [Hk0 Hnd]. case_decide as Hk; subst.
    + split.
      * intros [= ->]. left.
      * intros [[= ->]|Hin]%elem_of_cons; [done |].
        destruct Hk0. apply list_elem_of_fmap. by exists (k, v).
    + rewrite IH by done. split; [by right |].
      intros [[= -> ->]|Hin]%elem_of_cons; done.
Qed.

Lemma tsdict_get_elem_of_keys (d : tsdict) (k : Z) :
  is_Some (tsdict_get d k) ↔ k ∈ tsdict_keys d.
Proof.
  unfold tsdict_keys. induction d as [|[k0 v0] d IH]; csimpl.
  - split; [by intros [? ?] | by intros ?%elem_of_nil].
  - case_decide; subst.
    + split; [left | by eexists].
    + rewrite IH. split; [by right |].
      intros [?|?]%elem_of_cons; done.
Qed.

(** ** The loops that fill a dictionary *)

Section IndexBy.
Context (key : record → option Z).

Lemma index_by_app (d : tsdict) (l1 l2 : list record) :
  index_by key d (l1 ++ l2) =
  match index_by key d l1 with
  | Some d' => index_by key d' l2
  | None => None
  end.
Proof.
  revert d. induction l1 as [|r l1 IH]; intros d; simpl; [done |].
  destruct (key r); [apply IH | done].
Qed.

Lemma index_by_returns (d : tsdict) (l : list record) :
  Forall (λ r, is_Some (key r)) l ↔ is_Some (index_by key d l).
Proof.
  revert d. induction l as [|r l IH]; intros d; simpl.
  - split; [by eexists | constructor].
  - rewrite Forall_cons. destruct (key r) as [k|] eqn:Hk.
    + rewrite <- IH. split; [by intros [_ ?] | by split].
    + split; [by intros [[? ?] _] | by intros [? ?]].
Qed.

(** Last write wins: under a timestamp sits the last record of the list
    that went there, or what was there before. *)
Lemma index_by_get (d d' : tsdict) (l : list record) (k : Z) :
  index_by key d l = Some d' →
  tsdict_get d' k =
  match last (filter (λ r, key r = Some k) l) with
  | Some r => Some r
  | None => tsdict_get d k
  end.
Proof.
  revert d. induction l as [|r l IH]; intros d; simpl.
  - by intros [= ->].
  - destruct (key r) as [k0|] eqn:Hk; [| done]. intros Hd'.
    rewrite (IH _ Hd'), tsdict_get_set.
    destruct (decide (k0 = k)) as [->|Hne].
    + rewrite filter_cons_True by done.
      rewrite last_cons. by destruct (last _).
    + rewrite filter_cons_False by congruence. done.
Qed.

Lemma index_by_NoDup (d d' : tsdict) (l : list record) :
  index_by key d l = Some d' →
  NoDup (tsdict_keys d) → NoDup (tsdict_keys d').
Proof.
  revert d. induction l as [|r l IH]; intros d; simpl.
  - by intros [= ->].
  - destruct (key r) as [k0|]; [| done]. intros Hd' Hnd.
    apply (IH _ Hd'). by apply tsdict_set_NoDup.
Qed.

Lemma index_by_keys (d d' : tsdict) (l : list record) (k : Z) :
  index_by key d l = Some d' →
  k ∈ tsdict_keys d' ↔ k ∈ tsdict_keys d ∨ ∃ r, r ∈ l ∧ key r = Some k.
Proof.
  revert d. induction l as [|r l IH]; intros d; simpl.
  - intros [= ->]. split; [by left |].
    intros [?|(r & Hr & _)]; [done | by apply elem_of_nil in Hr].
  - destruct (key r) as [k0|] eqn:Hk; [| done]. intros Hd'.
    rewrite (IH _ Hd'), tsdict_set_elem_of_keys. split.
    + intros [[->|?]|(r' & Hr' & Hk')].
      * right. exists r. split; [left | done].
      * by left.
      * right. exists r'. split; [by right | done].
    + intros [?|(r' & [->|Hr']%elem_of_cons & Hk')].
      * left. by right.
      * left. left. congruence.
      * right. by exists r'.
Qed.

(** What is stored under a timestamp went there by its key. *)
Lemma index_by_key (d d' : tsdict) (l : list record) :
  index_by key d l = Some d' →
  Forall (λ kv, key kv.2 = Some kv.1) d →
  Forall (λ kv, key kv.2 = Some kv.1) d'.
Proof.
  revert d. induction l as [|r l IH]; intros d; simpl.
  - by intros [= ->].
  - destruct (key r) as [k0|] eqn:Hk; [| done]. intros Hd' Hall.
    apply (IH _ Hd'). clear IH Hd'.
    induction d as [|[k1 v1] d IHd]; simpl.
    + by repeat constructor.
    + apply Forall_cons in Hall as [H1 Hall].
      case_decide; subst; constructor; auto.
Qed.

Lemma index_by_nonempty (d d' : tsdict) (l : list record) :
  index_by key d l = Some d' → l ≠ [] → d' ≠ [].
Proof.
  destruct l as [|r l]; [done |]. simpl.
  destruct (key r) as [k0|]; [| done]. intros Hd' _ ->.
  assert (Hin : k0 ∈ tsdict_keys []).
  { apply (index_by_keys _ _ _ _ Hd'). left.
    apply tsdict_set_elem_of_keys. by left. }
  by apply elem_of_nil in Hin.
Qed.
End IndexBy.

(** ** The loops of the run *)

Lemma enumerate_snd {A} (n : nat) (l : list A) : (enumerate n l).*2 = l.
Proof. revert n. induction l as [|a l IH]; intros n; csimpl; by rewrite ?IH. Qed.

Lemma enumerate_length {A} (n : nat) (l : list A) :
  length (enumerate n l) = length l.
Proof. revert n. induction l as [|a l IH]; intros n; simpl; by rewrite ?IH. Qed.

Lemma enumerate_lookup {A} (n i : nat) (l : list A) :
  enumerate n l !! i = (λ a, ((n + i)%nat, a)) <$> l !! i.
Proof.
  revert n i. induction l as [|a l IH]; intros n [|i]; simpl; try done.
  - by rewrite Nat.add_0_r.
  - rewrite IH. by rewrite Nat.add_succ_r.
Qed.

Lemma omap_length_le {A B} (f : A → option B) (l : list A) :
  (length (omap f l) ≤ length l)%nat.
Proof. induction l as [|a l IH]; csimpl; [done |]. destruct (f a); simpl; lia. Qed.

Section Loops.
Context `{PyParsers} `{FeatureComputers}.
Variable fetch : nat → Z → fetched.

Lemma for_each_index_by (key : record → option Z) (d : tsdict)
    (l : list record) (tr : list event) :
  for_each (λ d rec, k ← subscript (key rec); mret (tsdict_set d k rec)) d l tr
  = (index_by key d l, tr).
Proof.
  revert d. induction l as [|r l IH]; intros d; simpl; [done |].
  unfold mbind, run_bind, subscript at 1.
  destruct (key r) as [k|]; [| done].
  unfold mret at 1, run_ret. apply IH.
Qed.

Lemma build_weather_by_ts_run (weather_records : list record) (tr : list event) :
  build_weather_by_ts weather_records tr
  = (index_by timestamp_of [] weather_records, tr).
Proof. apply for_each_index_by. Qed.

Lemma build_pollutant_by_ts_run (weather_by_ts : tsdict)
    (pollutant_records : list record) (tr : list event) :
  build_pollutant_by_ts weather_by_ts pollutant_records tr
  = (index_by (closest_of weather_by_ts) [] pollutant_records, tr).
Proof.
  unfold build_pollutant_by_ts.
  rewrite <- (for_each_index_by (closest_of weather_by_ts)).
  generalize (@nil (Z * record)).
  induction pollutant_records as [|r l IH]; intros d; simpl; [done |].
  unfold mbind, run_bind, subscript, closest_of.
  destruct (timestamp_of r) as [p_ts|]; [| done].
  unfold mret at 1 3, run_ret.
  destruct (closest_ts weather_by_ts p_ts) as [c|]; [| done].
  unfold mret at 1 2, run_ret. apply IH.
Qed.

(** One day: the call, the pause, and the state moved on, whatever the
    fetch did. *)
Lemma fetch_day_run (st : fetch_state) (iw : nat * record) (ts : Z)
    (tr : list event) :
  timestamp_of iw.2 = Some ts →
  fetch_day fetch st iw tr
  = (Some (fetch_result fetch st [iw]), tr ++ fetch_trace [iw]).
Proof.
  destruct iw as [i w]. simpl. intros Hts.
  unfold fetch_day, fetch_result, fetch_trace, day_record.
  unfold mbind, run_bind, subscript, emit, mret, run_ret. csimpl.
  rewrite Hts. rewrite <- app_assoc. simpl. f_equal. f_equal.
  destruct (fetch (i - 1)%nat ts) as [|raw_p]; simpl.
  - f_equal; [by rewrite app_nil_r | lia].
  - destruct (usable raw_p) eqn:Hu; simpl.
    + destruct raw_p as [r|]; [| done]. simpl. f_equal; lia.
    + f_equal; [by rewrite app_nil_r | lia].
Qed.

Lemma fetch_result_cons (st : fetch_state) (iw : nat * record)
    (days : list (nat * record)) :
  fetch_result fetch (fetch_result fetch st [iw]) days
  = fetch_result fetch st (iw :: days).
Proof.
  unfold fetch_result. csimpl.
  pose proof (omap_length_le (day_record fetch) days) as Hle.
  destruct (day_record fetch iw) as [r|]; simpl.
  - f_equal; [by rewrite <- app_assoc | lia | lia].
  - rewrite app_nil_r. f_equal; lia.
Qed.

(** The loop of step 2 goes through every day. *)
Lemma for_each_fetch_day (st : fetch_state) (days : list (nat * record))
    (tr : list event) :
  Forall has_timestamp days.*2 →
  for_each (fetch_day fetch) st days tr
  = (Some (fetch_result fetch st days), tr ++ fetch_trace days).
Proof.
  revert st tr. induction days as [|iw days IH]; intros st tr Hall.
  - simpl. unfold mret, run_ret, fetch_result. simpl.
    rewrite !app_nil_r. destruct st; simpl. do 3 f_equal; lia.
  - apply Forall_cons in Hall as [[ts Hts] Hall]. simpl.
    unfold mbind, run_bind. rewrite (fetch_day_run st iw ts tr Hts).
    rewrite IH by done. rewrite fetch_result_cons.
    f_equal. rewrite <- app_assoc. f_equal.
    unfold fetch_trace. csimpl. by rewrite app_nil_r.
Qed.

Lemma fetch_pollutants_run (weather_records : list record) (tr : list event) :
  Forall has_timestamp weather_records →
  fetch_pollutants fetch weather_records tr
  = (Some (fetch_result fetch {| pollutant_records := []; success := 0; failed := 0 |}
             (enumerate 1 weather_records)),
     tr ++ fetch_trace (enumerate 1 weather_records)).
Proof.
  intros Hall. apply for_each_fetch_day. by rewrite enumerate_snd.
Qed.

(** Steps 2 and 3 unfolded: the run raises only where a subscript does. *)
Lemma collect_merge_steps_run (weather_records : list record) (tr : list event) :
  collect_merge_steps fetch weather_records tr =
  match index_by timestamp_of [] weather_records with
  | None => (None, tr)
  | Some weather_by_ts =>
      let st := fetch_result fetch
                  {| pollutant_records := []; success := 0; failed := 0 |}
                  (enumerate 1 weather_records) in
      let tr' := tr ++ fetch_trace (enumerate 1 weather_records)
                    ++ [LogTally (success st) (failed st)] in
      match index_by (closest_of weather_by_ts) [] (pollutant_records st) with
      | None => (None, tr')
      | Some pollutant_by_ts =>
          (Some (merge_steps weather_by_ts pollutant_by_ts (pollutant_records st)), tr')
      end
  end.
Proof.
  unfold collect_merge_steps, mbind, run_bind.
  rewrite build_weather_by_ts_run.
  destruct (index_by timestamp_of [] weather_records) as [wbt|] eqn:Hw; [| done].
  assert (Hall : Forall has_timestamp weather_records).
  { apply (index_by_returns timestamp_of []). by rewrite Hw. }
  rewrite fetch_pollutants_run by done.
  unfold emit. rewrite build_pollutant_by_ts_run. cbv zeta.
  rewrite <- app_assoc.
  by destruct (index_by (closest_of wbt) [] _).
Qed.
End Loops.

(** ** Nearest timestamp *)

Lemma min_by_from_spec (key : Z → Z) (best : Z) (rest : list Z) :
  min_by_from key best rest ∈ best :: rest ∧
  ∀ t, t ∈ best :: rest → key (min_by_from key best rest) ≤ key t.
Proof.
  revert best. induction rest as [|t0 rest IH]; intros best; simpl.
  - split; [left |]. intros t ->%list_elem_of_singleton. lia.
  - destruct (IH (if key t0 <? key best then t0 else best)) as [Hin Hmin].
    split.
    + apply elem_of_cons in Hin as [->|Hin].
      * destruct (key t0 <? key best); [right; left | left].
      * right. by right.
    + intros t Ht.
      assert (Hbest : key (min_by_from key (if key t0 <? key best then t0 else best) rest)
                      ≤ key (if key t0 <? key best then t0 else best)).
      { apply Hmin. left. }
      apply elem_of_cons in Ht as [->|[->|Ht]%elem_of_cons].
      * destruct (Z.ltb_spec (key t0) (key best)); lia.
      * destruct (Z.ltb_spec (key t0) (key best)); lia.
      * apply Hmin. by right.
Qed.

Lemma closest_ts_spec (weather_by_ts : tsdict) (p_ts c : Z) :
  closest_ts weather_by_ts p_ts = Some c →
  c ∈ tsdict_keys weather_by_ts ∧
  ∀ t, t ∈ tsdict_keys weather_by_ts → Z.abs (c - p_ts) ≤ Z.abs (t - p_ts).
Proof.
  unfold closest_ts, min_by.
  destruct (tsdict_keys weather_by_ts) as [|t0 rest]; [done |].
  intros [= <-]. apply (min_by_from_spec (λ t, Z.abs (t - p_ts))).
Qed.

Lemma closest_ts_is_Some (weather_by_ts : tsdict) (p_ts : Z) :
  weather_by_ts ≠ [] → is_Some (closest_ts weather_by_ts p_ts).
Proof.
  destruct weather_by_ts as [|[k v] d]; [done |]. intros _.
  unfold closest_ts, min_by. csimpl. by eexists.
Qed.

Lemma closest_of_is_Some (weather_by_ts : tsdict) (rec : record) :
  weather_by_ts ≠ [] → has_timestamp rec → is_Some (closest_of weather_by_ts rec).
Proof.
  intros Hne [p_ts Hp]. unfold closest_of. rewrite Hp.
  by apply closest_ts_is_Some.
Qed.

(** ** Failures of the fetchers *)

Lemma omap_length_filter {A B} (f : A → option B) (l : list A) :
  length (omap f l) = length (filter (λ a, is_Some (f a)) l) ∧
  (length l - length (omap f l))%nat = length (filter (λ a, f a = None) l).
Proof.
  induction l as [|a l [IH1 IH2]]; csimpl; [done |].
  pose proof (omap_length_le f l) as Hle.
  destruct (f a) as [b|] eqn:Hfa; simpl.
  - rewrite filter_cons_True by (by rewrite Hfa).
    rewrite filter_cons_False by (by rewrite Hfa).
    simpl. split; [by rewrite IH1 | done].
  - rewrite filter_cons_False by (rewrite Hfa; by intros [? ?]).
    rewrite filter_cons_True by done.
    simpl. split; [done |]. rewrite <- IH2. lia.
Qed.

Lemma day_record_None (fetch : nat → Z → fetched) (i : nat) (w : record) (ts : Z) :
  timestamp_of w = Some ts →
  day_record fetch (i, w) = None ↔
  fetch (i - 1)%nat ts = FetchRaises ∨
  ∃ raw_p, fetch (i - 1)%nat ts = FetchReturns raw_p ∧ usable raw_p = false.
Proof.
  intros Hts. unfold day_record. simpl. rewrite Hts.
  destruct (fetch (i - 1)%nat ts) as [|raw_p]; [by split; [left |] |].
  destruct (usable raw_p) eqn:Hu.
  - destruct raw_p as [r|]; [| done].
    split; [done |]. intros [? | (? & [= <-] & ?)]; congruence.
  - split; [| done]. intros _. right. by exists raw_p.
Qed.

Lemma fetch_trace_calls (ws : list record) (i : nat) (w : record) (ts : Z) :
  ws !! i = Some w → timestamp_of w = Some ts →
  CallFetchPollutant i ts ∈ fetch_trace (enumerate 1 ws).
Proof.
  intros Hw Hts. unfold fetch_trace. apply list_elem_of_bind.
  exists (S i, w). split.
  - simpl. rewrite Hts, Nat.sub_0_r. left.
  - apply list_elem_of_lookup. exists i. by rewrite enumerate_lookup, Hw.
Qed.

(** C6: when the bulk weather fetch raises, the run returns the empty
    table at once: the pollutant fetcher is never called and nothing is
    written.  Otherwise the pollutant fetcher is called for every day in
    turn; a day whose fetch raises or returns no usable record counts as
    failed and adds no record, the others count as successes, and the
    tally is logged before the table is built, written and returned. *)
Theorem backfill_failure_semantics `{PyParsers} `{FeatureComputers} `{SortValues}
    (fetch : nat → Z → fetched) :
  (∀ tr, run_combined_backfill None fetch tr = (Some [], tr ++ [CallFetchWeather])) ∧
  (∀ ws : list record,
     Forall has_timestamp ws →
     let days := enumerate 1 ws in
     let st := fetch_result fetch
                 {| pollutant_records := []; success := 0; failed := 0 |} days in
     fetch_pollutants fetch ws [] = (Some st, fetch_trace days) ∧
     (∀ i w ts, ws !! i = Some w → timestamp_of w = Some ts →
                CallFetchPollutant i ts ∈ fetch_trace days) ∧
     pollutant_records st = omap (day_record fetch) days ∧
     (∀ i w ts, timestamp_of w = Some ts →
                day_record fetch (i, w) = None ↔
                fetch (i - 1)%nat ts = FetchRaises ∨
                ∃ raw_p, fetch (i - 1)%nat ts = FetchReturns raw_p ∧
                         usable raw_p = false) ∧
     failed st = length (filter (λ iw, day_record fetch iw = None) days) ∧
     success st = length (filter (λ iw, is_Some (day_record fetch iw)) days) ∧
     (success st + failed st)%nat = length ws ∧
     ∃ result rest,
       run_combined_backfill (Some ws) fetch [] =
         (result,
          CallFetchWeather :: fetch_trace days
            ++ LogTally (success st) (failed st) :: rest) ∧
       (Forall has_timestamp (pollutant_records st) →
        ∃ df, result = Some df ∧ rest = [ToCsv df])).
Proof.
  split; [done |].
  intros ws Hall days st.
  destruct (omap_length_filter (day_record fetch) days) as [Hok Hko].
  pose proof (omap_length_le (day_record fetch) days) as Hle.
  assert (Hlen : length days = length ws) by apply enumerate_length.
  split; [by rewrite fetch_pollutants_run |].
  split; [apply fetch_trace_calls |].
  split; [done |].
  split; [apply day_record_None |].
  split; [simpl; by rewrite <- Hko |].
  split; [simpl; by rewrite <- Hok |].
  split; [simpl; lia |].
  unfold run_combined_backfill, mbind, run_bind, emit at 1.
  rewrite collect_merge_steps_run. simpl app.
  destruct (proj1 (index_by_returns timestamp_of [] ws) Hall) as [wbt Hwbt].
  rewrite Hwbt. cbv zeta. fold days. fold st.
  destruct (index_by (closest_of wbt) [] (pollutant_records st)) as [pbt|] eqn:Hpbt.
  - exists (Some (finish_table (ms_merged <$> merge_steps wbt pbt (pollutant_records st)))),
      [ToCsv (finish_table (ms_merged <$> merge_steps wbt pbt (pollutant_records st)))].
    split.
    + unfold emit, mret, run_ret. simpl. by rewrite <- app_assoc.
    + intros _. by eexists.
  - exists None, []. split; [done |].
    intros Hts. exfalso.
    assert (Hsome : is_Some (index_by (closest_of wbt) [] (pollutant_records st))).
    { apply index_by_returns.
      destruct (decide (ws = [])) as [->|Hne]; [constructor |].
      eapply Forall_impl; [exact Hts |]. intros r Hr.
      apply closest_of_is_Some; [| done].
      by apply (index_by_nonempty timestamp_of [] wbt ws). }
    rewrite Hpbt in Hsome. by destruct Hsome.
Qed.

(** ** Sorting and dropping duplicates *)

Lemma ts_eqb_eq (a b : option Z) : ts_eqb a b = true ↔ a = b.
Proof.
  destruct a as [x|], b as [y|]; simpl; try (split; done).
  rewrite Z.eqb_eq. split; congruence.
Qed.

Lemma ts_leb_antisym (a b : option Z) :
  ts_leb a b = true → ts_leb b a = true → a = b.
Proof.
  destruct a as [x|], b as [y|]; simpl; try done.
  rewrite !Z.leb_le. intros. f_equal. lia.
Qed.

#[export] Instance row_le_dec : RelDecision row_le.
Proof. intros a b. unfold row_le. apply _. Defined.

#[export] Instance row_le_total : Total row_le.
Proof.
  intros a b. unfold row_le.
  destruct (row_ts a) as [x|], (row_ts b) as [y|]; simpl; auto.
  rewrite !Z.leb_le. lia.
Qed.

#[export] Instance row_le_trans : Transitive row_le.
Proof.
  intros a b c. unfold row_le.
  destruct (row_ts a) as [x|], (row_ts b) as [y|], (row_ts c) as [z|];
    simpl; try done.
  rewrite !Z.leb_le. lia.
Qed.

Lemma existsb_row_ts (r : record) (l : dataframe) :
  existsb (λ r', ts_eqb (row_ts r) (row_ts r')) l = true ↔ row_ts r ∈ row_ts <$> l.
Proof.
  rewrite existsb_exists, list_elem_of_fmap. split.
  - intros (r' & Hin & Heq). exists r'.
    split; [by apply ts_eqb_eq | by apply list_elem_of_In].
  - intros (r' & Heq & Hin). exists r'.
    split; [by apply list_elem_of_In | by apply ts_eqb_eq].
Qed.

Lemma drop_duplicates_last_elem_of (l : dataframe) (r : record) :
  r ∈ drop_duplicates_last l → r ∈ l.
Proof.
  induction l as [|r0 l IH]; simpl; [done |].
  destruct (existsb _ l).
  - intros Hin. right. by apply IH.
  - intros [->|Hin]%elem_of_cons; [left | right; by apply IH].
Qed.

(** No timestamp is lost. *)
Lemma drop_duplicates_last_keys (l : dataframe) (k : option Z) :
  k ∈ row_ts <$> drop_duplicates_last l ↔ k ∈ row_ts <$> l.
Proof.
  induction l as [|r0 l IH]; simpl; [done |].
  destruct (existsb _ l) eqn:Hex; csimpl.
  - rewrite IH, elem_of_cons. split; [by right |].
    intros [->|?]; [by apply existsb_row_ts | done].
  - by rewrite !elem_of_cons, IH.
Qed.

(** No timestamp is left twice. *)
Lemma drop_duplicates_last_NoDup (l : dataframe) :
  NoDup (row_ts <$> drop_duplicates_last l).
Proof.
  induction l as [|r0 l IH]; simpl; [constructor |].
  destruct (existsb _ l) eqn:Hex; csimpl; [done |].
  constructor; [| done].
  rewrite drop_duplicates_last_keys, <- existsb_row_ts. by rewrite Hex.
Qed.

(** Rows with distinct timestamps all stay. *)
Lemma drop_duplicates_last_id (l : dataframe) :
  NoDup (row_ts <$> l) → drop_duplicates_last l = l.
Proof.
  induction l as [|r0 l IH]; csimpl; [done |].
  intros [Hnin Hnd]%NoDup_cons.
  destruct (existsb _ l) eqn:Hex.
  - by apply existsb_row_ts in Hex.
  - by rewrite IH.
Qed.

Lemma filter_none {A} (P : A → Prop) `{∀ x, Decision (P x)} (l : list A) :
  (∀ x, x ∈ l → ¬ P x) → filter P l = [].
Proof.
  induction l as [|a l IH]; intros Hall; [done |].
  rewrite filter_cons_False by (apply Hall; left).
  apply IH. intros x Hx. apply Hall. by right.
Qed.

(** Of the rows with one timestamp the last is the one that stays. *)
Lemma drop_duplicates_last_keeps_last (l : dataframe) (r : record) :
  r ∈ drop_duplicates_last l →
  last (filter (λ r', row_ts r' = row_ts r) l) = Some r.
Proof.
  induction l as [|r0 l IH]; simpl; [by intros ?%elem_of_nil |].
  destruct (existsb _ l) eqn:Hex.
  - intros Hin. specialize (IH Hin).
    destruct (decide (row_ts r0 = row_ts r)).
    + rewrite filter_cons_True by done. rewrite last_cons. by rewrite IH.
    + by rewrite filter_cons_False.
  - intros [->|Hin]%elem_of_cons.
    + rewrite filter_cons_True by done.
      assert (Hnone : filter (λ r', row_ts r' = row_ts r0) l = []).
      { apply filter_none. intros r' Hr' Heq.
        apply not_true_iff_false in Hex. apply Hex, existsb_row_ts.
        rewrite <- Heq. by apply list_elem_of_fmap_2. }
      by rewrite Hnone.
    + specialize (IH Hin).
      destruct (decide (row_ts r0 = row_ts r)) as [Heq|Hne].
      * rewrite filter_cons_True by done. rewrite last_cons. by rewrite IH.
      * by rewrite filter_cons_False.
Qed.

Lemma NoDup_fmap_eq {A B} (f : A → B) (l : list A) (x y : A) :
  NoDup (f <$> l) → x ∈ l → y ∈ l → f x = f y → x = y.
Proof.
  induction l as [|a l IH]; csimpl; [by intros _ ?%elem_of_nil |].
  intros [Hnin Hnd]%NoDup_cons [->|Hx]%elem_of_cons [->|Hy]%elem_of_cons Heq.
  - done.
  - destruct Hnin. rewrite Heq. by apply list_elem_of_fmap_2.
  - destruct Hnin. rewrite <- Heq. by apply list_elem_of_fmap_2.
  - by apply IH.
Qed.

Lemma drop_duplicates_last_sorted (l : dataframe) :
  StronglySorted row_le l → StronglySorted row_le (drop_duplicates_last l).
Proof.
  induction 1 as [|r0 l Hl IH Hall]; simpl; [constructor |].
  destruct (existsb _ l); [done |].
  constructor; [done |].
  rewrite Forall_forall in Hall |- *. intros r Hr.
  apply Hall. by apply drop_duplicates_last_elem_of.
Qed.

(** The merge sort of stdpp is one way to sort the rows. *)
Definition merge_sort_values : SortValues := {|
  sort_values := merge_sort row_le;
  sort_values_perm := merge_sort_Permutation row_le;
  sort_values_sorted := Sorted_merge_sort row_le
|}.

(** Insertion sort is another, and a stable one: a row goes in before the
    first row that is not below it, and the rows are put in from the last
    to the first. *)
Fixpoint insert_row (r : record) (l : dataframe) : dataframe :=
  match l with
  | [] => [r]
  | r' :: l' =>
      if ts_leb (row_ts r) (row_ts r') then r :: r' :: l'
      else r' :: insert_row r l'
  end.

Definition insertion_sort (df : dataframe) : dataframe := foldr insert_row [] df.

Lemma insert_row_perm (r : record) (l : dataframe) : insert_row r l ≡ₚ r :: l.
Proof.
  induction l as [|r' l IH]; simpl; [done |].
  destruct (ts_leb _ _); [done |].
  rewrite IH. apply Permutation_swap.
Qed.

Lemma insert_row_sorted (r : record) (l : dataframe) :
  StronglySorted row_le l → StronglySorted row_le (insert_row r l).
Proof.
  induction 1 as [|r' l Hl IH Hall]; simpl; [by repeat constructor |].
  destruct (ts_leb (row_ts r) (row_ts r')) eqn:Hle.
  - constructor; [by constructor |].
    constructor; [done |].
    eapply Forall_impl; [exact Hall |]. intros x Hx.
    by transitivity r'.
  - constructor; [done |].
    rewrite insert_row_perm. constructor; [| done].
    destruct (total row_le r r') as [Hrr'|Hr'r]; [| done].
    unfold row_le in Hrr'. congruence.
Qed.

Lemma insert_row_filter (r : record) (l : dataframe) (k : option Z) :
  filter (λ r', row_ts r' = k) (insert_row r l)
  = filter (λ r', row_ts r' = k) (r :: l).
Proof.
  induction l as [|r' l IH]; simpl; [done |].
  destruct (ts_leb (row_ts r) (row_ts r')) eqn:Hle; [done |].
  destruct (decide (row_ts r' = k)) as [Hr'|Hr'].
  - rewrite (filter_cons_True _ r') by done. rewrite IH.
    assert (Hr : row_ts r ≠ k).
    { intros Hr. rewrite Hr, <- Hr' in Hle.
      destruct (row_ts r') as [x|]; simpl in Hle; [| done].
      apply Z.leb_gt in Hle. lia. }
    rewrite !(filter_cons_False _ r) by done.
    by rewrite filter_cons_True.
  - rewrite (filter_cons_False _ r') by done. rewrite IH.
    destruct (decide (row_ts r = k)).
    + rewrite !(filter_cons_True _ r) by done. by rewrite filter_cons_False.
    + rewrite !(filter_cons_False _ r) by done. by rewrite filter_cons_False.
Qed.

Lemma insertion_sort_perm (df : dataframe) : insertion_sort df ≡ₚ df.
Proof.
  induction df as [|r df IH]; simpl; [done |].
  by rewrite insert_row_perm, IH.
Qed.

Lemma insertion_sort_sorted (df : dataframe) : Sorted row_le (insertion_sort df).
Proof.
  apply StronglySorted_Sorted.
  induction df as [|r df IH]; simpl; [constructor |].
  by apply insert_row_sorted.
Qed.

Definition insertion_sort_values : SortValues := {|
  sort_values := insertion_sort;
  sort_values_perm := insertion_sort_perm;
  sort_values_sorted := insertion_sort_sorted
|}.

Lemma insertion_sort_stable : @stable_sort insertion_sort_values.
Proof.
  intros df k. simpl.
  induction df as [|r df IH]; simpl; [done |].
  rewrite insert_row_filter.
  destruct (decide (row_ts r = k)).
  - rewrite !(filter_cons_True _ r) by done. by rewrite IH.
  - rewrite !(filter_cons_False _ r) by done. by rewrite IH.
Qed.

Section SortDedup.
Context `{SortValues}.

(** Rows in ascending order of distinct timestamps are left as they are by
    any sort. *)
Lemma sort_values_fixed (l : dataframe) :
  Sorted row_le l → NoDup (row_ts <$> l) → sort_values l = l.
Proof.
  intros Hsorted Hnd.
  apply (Sorted_unique_strong row_le).
  - intros x1 x2 Hx1 Hx2 H12 H21.
    rewrite sort_values_perm in Hx1.
    apply (NoDup_fmap_eq row_ts l); [done.. |].
    by apply ts_leb_antisym.
  - apply sort_values_sorted.
  - done.
  - apply sort_values_perm.
Qed.

Lemma sort_dedup_fixed (l : dataframe) :
  Sorted row_le l → NoDup (row_ts <$> l) → sort_dedup l = l.
Proof.
  intros Hsorted Hnd. unfold sort_dedup.
  rewrite sort_values_fixed by done. by apply drop_duplicates_last_id.
Qed.

Lemma sort_dedup_sorted (df : dataframe) :
  StronglySorted row_le (sort_dedup df) ∧ NoDup (row_ts <$> sort_dedup df).
Proof.
  split.
  - apply drop_duplicates_last_sorted, Sorted_StronglySorted; [apply _ |].
    apply sort_values_sorted.
  - apply drop_duplicates_last_NoDup.
Qed.

Lemma finish_table_elem_of (rows : dataframe) (row : record) :
  row ∈ finish_table rows → row ∈ rows.
Proof.
  unfold finish_table. destruct (has_column rows "timestamp"); [| done].
  intros Hrow%drop_duplicates_last_elem_of. by rewrite sort_values_perm in Hrow.
Qed.

(** What [sort_values] followed by [drop_duplicates] leaves of any rows:
    the rows in ascending order, no timestamp twice and none lost, and of
    the rows of one timestamp the one that the sort put last; a stable sort
    puts last the one that came last. *)
Lemma sort_dedup_spec (rows : dataframe) :
  Sorted row_le (sort_dedup rows) ∧
  NoDup (row_ts <$> sort_dedup rows) ∧
  (∀ k, k ∈ row_ts <$> sort_dedup rows ↔ k ∈ row_ts <$> rows) ∧
  (∀ row, row ∈ sort_dedup rows →
     row ∈ rows ∧
     last (filter (λ r, row_ts r = row_ts row) (sort_values rows)) = Some row) ∧
  (stable_sort →
   ∀ row, row ∈ sort_dedup rows →
     last (filter (λ r, row_ts r = row_ts row) rows) = Some row).
Proof.
  destruct (sort_dedup_sorted rows) as [Hsorted Hnd].
  split; [by apply StronglySorted_Sorted |]. split; [done |].
  split; [| split].
  - intros k. unfold sort_dedup. rewrite drop_duplicates_last_keys.
    by rewrite sort_values_perm.
  - intros row Hrow. split.
    + rewrite <- (sort_values_perm rows).
      by apply drop_duplicates_last_elem_of.
    + by apply drop_duplicates_last_keeps_last.
  - intros Hstable row Hrow. rewrite <- Hstable.
    by apply drop_duplicates_last_keeps_last.
Qed.

(** C9: sorting by timestamp and dropping the duplicates but the last,
    done twice, gives the table that doing it once gives, whichever way
    the sort orders rows of equal timestamps; so does the guarded step of
    the run. *)
Theorem sort_dedup_idempotent (df : dataframe) :
  sort_dedup (sort_dedup df) = sort_dedup df ∧
  finish_table (finish_table df) = finish_table df.
Proof.
  assert (Hidem : sort_dedup (sort_dedup df) = sort_dedup df).
  { destruct (sort_dedup_sorted df) as [Hsorted Hnd].
    apply sort_dedup_fixed; [| done].
    by apply StronglySorted_Sorted. }
  split; [done |].
  unfold finish_table.
  destruct (has_column df "timestamp") eqn:Hcol.
  - destruct (has_column (sort_dedup df) "timestamp"); done.
  - by rewrite Hcol.
Qed.
End SortDedup.

(** ** Matching pollutant records to weather timestamps *)

(** The dictionary of the matching step: at most one pollutant record
    under a weather timestamp, namely the last fetched of those whose
    nearest weather timestamp it is; a record that lost its place to a
    later one is stored under no timestamp. *)
Lemma build_pollutant_by_ts_last_wins `{PyParsers} `{FeatureComputers}
    (weather_by_ts : tsdict) (pollutant_records : list record) (tr : list event) :
  weather_by_ts ≠ [] →
  Forall has_timestamp pollutant_records →
  ∃ pollutant_by_ts,
    build_pollutant_by_ts weather_by_ts pollutant_records tr
      = (Some pollutant_by_ts, tr) ∧
    NoDup (tsdict_keys pollutant_by_ts) ∧
    (∀ c, tsdict_get pollutant_by_ts c =
          last (filter (λ r, closest_of weather_by_ts r = Some c) pollutant_records)) ∧
    (∀ c r, tsdict_get pollutant_by_ts c = Some r →
            c ∈ tsdict_keys weather_by_ts ∧
            ∃ p_ts, timestamp_of r = Some p_ts ∧
                    ∀ t, t ∈ tsdict_keys weather_by_ts →
                         Z.abs (c - p_ts) ≤ Z.abs (t - p_ts)) ∧
    (∀ r c, r ∈ pollutant_records →
            closest_of weather_by_ts r = Some c →
            tsdict_get pollutant_by_ts c ≠ Some r →
            ∀ t, tsdict_get pollutant_by_ts t ≠ Some r) ∧
    (∀ i ts weather_raw,
       ms_pollutant_raw
         (merge_row pollutant_by_ts pollutant_records i ts weather_raw)
       = tsdict_get pollutant_by_ts ts).
Proof.
  intros Hne Hall.
  assert (Hsome : is_Some (index_by (closest_of weather_by_ts) [] pollutant_records)).
  { apply index_by_returns. eapply Forall_impl; [exact Hall |].
    intros r Hr. by apply closest_of_is_Some. }
  destruct Hsome as [pbt Hpbt]. exists pbt.
  assert (Hget : ∀ c, tsdict_get pbt c =
    last (filter (λ r, closest_of weather_by_ts r = Some c) pollutant_records)).
  { intros c. rewrite (index_by_get _ _ _ _ c Hpbt). simpl.
    by destruct (last _). }
  assert (Hkey : ∀ c r, tsdict_get pbt c = Some r → closest_of weather_by_ts r = Some c).
  { intros c r. rewrite Hget. intros Hlast%last_Some_elem_of.
    by apply list_elem_of_filter in Hlast as [? _]. }
  split; [by rewrite build_pollutant_by_ts_run, Hpbt |].
  split; [apply (index_by_NoDup _ _ _ _ Hpbt); constructor |].
  split; [exact Hget |].
  split; [| split; [| done]].
  - intros c r Hr. apply Hkey in Hr. unfold closest_of in Hr.
    destruct (timestamp_of r) as [p_ts|]; [| done].
    destruct (closest_ts_spec _ _ _ Hr) as [Hin Hmin].
    split; [done |]. by exists p_ts.
  - intros r c Hr Hc Hlost t Ht.
    assert (t = c) as -> by (apply Hkey in Ht; congruence).
    done.
Qed.

(** ** The rows of the table *)

Lemma StronglySorted_lt_NoDup (l : list Z) : StronglySorted Z.lt l → NoDup l.
Proof.
  induction 1 as [|t l Hl IH Hall]; constructor; [| done].
  intros Hin. rewrite Forall_forall in Hall. specialize (Hall t Hin). lia.
Qed.

Lemma StronglySorted_le_lt (l : list Z) :
  StronglySorted Z.le l → NoDup l → StronglySorted Z.lt l.
Proof.
  induction 1 as [|t l Hl IH Hall]; intros Hnd; constructor.
  - apply IH. by apply NoDup_cons in Hnd as [_ ?].
  - apply NoDup_cons in Hnd as [Hnin _].
    rewrite Forall_forall in Hall |- *. intros t' Ht'.
    specialize (Hall t' Ht'). assert (t ≠ t') by congruence. lia.
Qed.

(** Rows whose timestamps are strictly ascending are sorted, and no two of
    them share a timestamp. *)
Lemma rows_ascending (rows : dataframe) (tss : list Z) :
  row_ts <$> rows = Some <$> tss →
  StronglySorted Z.lt tss →
  Sorted row_le rows ∧ NoDup (row_ts <$> rows).
Proof.
  intros Hts Hsorted. split.
  - apply StronglySorted_Sorted.
    revert tss Hts Hsorted.
    induction rows as [|r rows IH]; intros [|t tss] Hts Hsorted;
      try done; [constructor |].
    injection Hts as Hr Hrows.
    apply StronglySorted_inv in Hsorted as [Htss Hall].
    constructor; [by apply (IH tss) |].
    apply Forall_forall. intros r' Hr'.
    assert (Hin : row_ts r' ∈ Some <$> tss).
    { change (row_ts r' ∈ list_fmap Z (option Z) Some tss).
      rewrite <- Hrows. by apply list_elem_of_fmap_2. }
    apply list_elem_of_fmap in Hin as (t' & Ht' & Hin).
    unfold row_le. rewrite Hr, Ht'. simpl.
    apply Z.leb_le.
    pose proof (proj1 (Forall_forall _ _) Hall t' Hin). lia.
  - rewrite Hts. apply NoDup_fmap_2; [apply _ |].
    by apply StronglySorted_lt_NoDup.
Qed.

Lemma sorted_items_spec (weather_by_ts : tsdict) :
  NoDup (tsdict_keys weather_by_ts) →
  sorted_items weather_by_ts ≡ₚ weather_by_ts ∧
  StronglySorted Z.lt (sorted_items weather_by_ts).*1.
Proof.
  intros Hnd. unfold sorted_items.
  pose proof (merge_sort_Permutation item_le weather_by_ts) as Hperm.
  split; [done |].
  apply StronglySorted_le_lt.
  - apply (StronglySorted_fmap fst item_le); [done |].
    apply StronglySorted_merge_sort.
    + intros a b c. unfold item_le. lia.
    + intros a b. unfold item_le. lia.
  - unfold tsdict_keys in Hnd. by rewrite Hperm.
Qed.

Lemma clean_weather_record_timestamp `{PyParsers} (rec : record) :
  timestamp_of (clean_weather_record rec) = timestamp_of rec.
Proof.
  unfold timestamp_of.
  rewrite clean_weather_record_lookup, !decide_False by done.
  destruct (rec !! "timestamp") as [[| | |[]| |]|]; done.
Qed.

Lemma merge_features_timestamp (weather_features pollutant_features : record) :
  merge_features weather_features pollutant_features !! "timestamp"
  = weather_features !! "timestamp".
Proof.
  unfold merge_features.
  apply (map_fold_weak_ind
           (λ merged _, merged !! "timestamp" = weather_features !! "timestamp"));
    [done |].
  intros k v m merged _ IH. case_decide; [done |].
  by rewrite lookup_insert_ne.
Qed.

Section Rows.
Context `{PyParsers} `{FeatureComputers}.
Hypothesis features_keep_timestamp :
  ∀ rec, timestamp_of (compute_weather_features rec) = timestamp_of rec.

Lemma merge_row_timestamp (pollutant_by_ts : tsdict) (pollutant_records : list record)
    (i : nat) (ts : Z) (weather_raw : record) :
  row_ts (ms_merged (merge_row pollutant_by_ts pollutant_records i ts weather_raw))
  = timestamp_of weather_raw.
Proof.
  unfold row_ts, merge_row. cbn [ms_merged].
  unfold timestamp_of at 1. rewrite merge_features_timestamp.
  fold (timestamp_of (compute_weather_features (clean_weather_record weather_raw))).
  by rewrite features_keep_timestamp, clean_weather_record_timestamp.
Qed.

Lemma merge_steps_row_ts (weather_by_ts pollutant_by_ts : tsdict)
    (pollutant_records : list record) :
  Forall (λ kv, timestamp_of kv.2 = Some kv.1) weather_by_ts →
  row_ts <$> (ms_merged <$> merge_steps weather_by_ts pollutant_by_ts pollutant_records)
  = Some <$> (sorted_items weather_by_ts).*1.
Proof.
  intros Hall.
  assert (Hitems : Forall (λ kv, timestamp_of kv.2 = Some kv.1)
                     (sorted_items weather_by_ts)).
  { unfold sorted_items. by rewrite merge_sort_Permutation. }
  unfold merge_steps. generalize 0%nat.
  induction Hitems as [|[ts w] items Hw Hitems IH]; intros n; csimpl; [done |].
  rewrite IH. f_equal.
  etrans; [exact (merge_row_timestamp pollutant_by_ts pollutant_records n ts w) |].
  exact Hw.
Qed.

Lemma merge_steps_lookup (weather_by_ts pollutant_by_ts : tsdict)
    (pollutant_records : list record) (i : nat) :
  merge_steps weather_by_ts pollutant_by_ts pollutant_records !! i
  = (λ kv, merge_row pollutant_by_ts pollutant_records i kv.1 kv.2)
      <$> sorted_items weather_by_ts !! i.
Proof.
  unfold merge_steps. rewrite list_lookup_fmap, enumerate_lookup.
  by destruct (sorted_items weather_by_ts !! i) as [[ts w]|].
Qed.
End Rows.

Section Table.
Context `{PyParsers} `{FeatureComputers} `{SortValues}.
Variable fetch : nat → Z → fetched.

(** A run that returns, unfolded down to its rows. *)
Lemma run_combined_backfill_returns (ws : list record) (df : dataframe)
    (tr : list event) :
  run_combined_backfill (Some ws) fetch [] = (Some df, tr) →
  ∃ weather_by_ts pollutant_by_ts pollutant_records tr',
    index_by timestamp_of [] ws = Some weather_by_ts ∧
    df = finish_table
           (ms_merged <$> merge_steps weather_by_ts pollutant_by_ts pollutant_records) ∧
    tr = tr' ++ [ToCsv df].
Proof.
  unfold run_combined_backfill, mbind, run_bind, emit at 1.
  rewrite collect_merge_steps_run.
  destruct (index_by timestamp_of [] ws) as [wbt|]; [| done]. cbv zeta.
  destruct (index_by (closest_of wbt) [] _) as [pbt|]; [| done].
  unfold emit, mret, run_ret. intros [= <- <-].
  eexists wbt, pbt, _, (CallFetchWeather :: _).
  split; [done |]. split; reflexivity.
Qed.

(** The same, with the two dictionaries and the fetched records named. *)
Lemma run_combined_backfill_rows (ws : list record) (df : dataframe)
    (tr : list event) :
  run_combined_backfill (Some ws) fetch [] = (Some df, tr) →
  ∃ weather_by_ts pollutant_by_ts,
    index_by timestamp_of [] ws = Some weather_by_ts ∧
    index_by (closest_of weather_by_ts) []
      (omap (day_record fetch) (enumerate 1 ws)) = Some pollutant_by_ts ∧
    df = finish_table
           (ms_merged <$> merge_steps weather_by_ts pollutant_by_ts
                            (omap (day_record fetch) (enumerate 1 ws))).
Proof.
  unfold run_combined_backfill, mbind, run_bind, emit at 1.
  rewrite collect_merge_steps_run.
  destruct (index_by timestamp_of [] ws) as [wbt|]; [| done]. cbv zeta.
  unfold fetch_result. cbn [pollutant_records]. rewrite app_nil_l.
  destruct (index_by (closest_of wbt) [] _) as [pbt|] eqn:Hpbt; [| done].
  unfold emit, mret, run_ret. intros [= <- <-].
  by exists wbt, pbt.
Qed.

(** The weather records that a row can be built from are those fetched. *)
Lemma sorted_items_elem_of (ws : list record) (weather_by_ts : tsdict)
    (i : nat) (t : Z) (w : record) :
  index_by timestamp_of [] ws = Some weather_by_ts →
  sorted_items weather_by_ts !! i = Some (t, w) →
  last (filter (λ w, timestamp_of w = Some t) ws) = Some w.
Proof.
  intros Hwbt Hi.
  assert (Hnd : NoDup (tsdict_keys weather_by_ts)).
  { apply (index_by_NoDup _ _ _ _ Hwbt). constructor. }
  assert (Hget : tsdict_get weather_by_ts t = Some w).
  { apply tsdict_get_Some; [done |].
    apply list_elem_of_lookup_2 in Hi. unfold sorted_items in Hi.
    by rewrite merge_sort_Permutation in Hi. }
  rewrite (index_by_get _ _ _ _ t Hwbt) in Hget.
  by destruct (last _).
Qed.

(** The [timestamp] cell of a merged row is the one that the weather
    feature computer set. *)
Lemma merged_rows_cells (ws : list record) (weather_by_ts pollutant_by_ts : tsdict)
    (pollutant_records : list record) :
  index_by timestamp_of [] ws = Some weather_by_ts →
  Forall (λ w, int_or_missing
                 (compute_weather_features (clean_weather_record w) !! "timestamp"))
         ws →
  Forall (λ row, int_or_missing (row !! "timestamp"))
         (ms_merged <$> merge_steps weather_by_ts pollutant_by_ts pollutant_records).
Proof.
  intros Hwbt Hcells.
  apply Forall_forall. intros row Hrow.
  apply list_elem_of_fmap in Hrow as (step & -> & Hstep).
  apply list_elem_of_lookup in Hstep as [i Hstep].
  rewrite merge_steps_lookup in Hstep.
  destruct (sorted_items weather_by_ts !! i) as [[t w]|] eqn:Hi; [| done].
  injection Hstep as <-. simpl.
  unfold merge_row. cbn [ms_merged]. rewrite merge_features_timestamp.
  apply (proj1 (Forall_forall _ _) Hcells).
  pose proof (sorted_items_elem_of ws weather_by_ts i t w Hwbt Hi) as Hlast.
  apply last_Some_elem_of in Hlast.
  by apply list_elem_of_filter in Hlast as [_ ?].
Qed.

(** When the weather feature computer hands the timestamp of a record on,
    the rows of a returned table carry the distinct timestamps of the
    weather records in strictly ascending order, one row each; the row of a
    timestamp is built from the last weather record that has it. *)
Lemma table_of_kept_timestamps (ws : list record) (df : dataframe)
    (tr : list event) :
  (∀ rec, timestamp_of (compute_weather_features rec) = timestamp_of rec) →
  run_combined_backfill (Some ws) fetch [] = (Some df, tr) →
  last tr = Some (ToCsv df) ∧
  ∃ tss : list Z,
    row_ts <$> df = Some <$> tss ∧
    StronglySorted Z.lt tss ∧
    NoDup (row_ts <$> df) ∧
    (∀ t, t ∈ tss ↔ ∃ w, w ∈ ws ∧ timestamp_of w = Some t) ∧
    (∀ i row, df !! i = Some row →
       ∃ t w pollutant_by_ts pollutant_records,
         tss !! i = Some t ∧
         last (filter (λ w, timestamp_of w = Some t) ws) = Some w ∧
         row = ms_merged (merge_row pollutant_by_ts pollutant_records i t w)).
Proof.
  intros Hfeat Hrun.
  destruct (run_combined_backfill_returns ws df tr Hrun)
    as (wbt & pbt & precs & tr' & Hwbt & Hdf & ->).
  split; [apply last_snoc |].
  assert (Hnd : NoDup (tsdict_keys wbt)).
  { apply (index_by_NoDup _ _ _ _ Hwbt). constructor. }
  assert (Hkey : Forall (λ kv, timestamp_of kv.2 = Some kv.1) wbt).
  { apply (index_by_key _ _ _ _ Hwbt). constructor. }
  destruct (sorted_items_spec wbt Hnd) as [Hperm Hsorted].
  set (rows := ms_merged <$> merge_steps wbt pbt precs) in *.
  assert (Hrows : row_ts <$> rows = Some <$> (sorted_items wbt).*1).
  { by apply merge_steps_row_ts. }
  destruct (rows_ascending rows _ Hrows Hsorted) as [Hrsorted Hrnd].
  assert (Hfix : df = rows).
  { rewrite Hdf. unfold finish_table.
    destruct (has_column rows "timestamp"); [| done].
    by apply sort_dedup_fixed. }
  rewrite Hfix. exists (sorted_items wbt).*1.
  split; [done |]. split; [done |]. split; [done |]. split.
  - intros t.
    assert (Hin : t ∈ (sorted_items wbt).*1 ↔ t ∈ tsdict_keys wbt).
    { unfold tsdict_keys. by rewrite Hperm. }
    rewrite Hin, (index_by_keys _ _ _ _ t Hwbt). split.
    + intros [?%elem_of_nil|?]; done.
    + by right.
  - intros i row Hrow. unfold rows in Hrow.
    rewrite list_lookup_fmap, merge_steps_lookup in Hrow.
    destruct (sorted_items wbt !! i) as [[t w]|] eqn:Hi; [| done].
    injection Hrow as <-. exists t, w, pbt, precs.
    split; [by rewrite list_lookup_fmap, Hi |]. split; [| done].
    assert (Hget : tsdict_get wbt t = Some w).
    { apply tsdict_get_Some; [done |].
      rewrite <- Hperm. by apply list_elem_of_lookup_2 in Hi. }
    rewrite (index_by_get _ _ _ _ t Hwbt) in Hget.
    by destruct (last _).
Qed.

(** C8: for weather records with integer timestamps, a run that returns a
    table has written that very table; it is what [sort_values] and
    [drop_duplicates] leave of the merged rows, one per weather timestamp,
    whose [timestamp] cells (integers or missing) are those that the weather
    feature computer sets.  When there is a [timestamp] column the rows of
    the table are in ascending order, no timestamp is there twice and every
    timestamp of a merged row is there once; of the merged rows of one
    timestamp the table keeps the one that the sort put last, which under a
    stable sort is the one built last.  When the weather feature computer
    hands the timestamp of a record on, the timestamps of the table are the
    distinct timestamps of the weather records, and the row of a timestamp
    is built from the last weather record that has it. *)
Theorem backfill_table_one_row_per_timestamp (ws : list record) (df : dataframe)
    (tr : list event) :
  Forall has_timestamp ws →
  Forall (λ w, int_or_missing
                 (compute_weather_features (clean_weather_record w) !! "timestamp"))
         ws →
  run_combined_backfill (Some ws) fetch [] = (Some df, tr) →
  last tr = Some (ToCsv df) ∧
  ∃ weather_by_ts pollutant_by_ts (rows : dataframe),
    index_by timestamp_of [] ws = Some weather_by_ts ∧
    rows = ms_merged <$> merge_steps weather_by_ts pollutant_by_ts
                           (omap (day_record fetch) (enumerate 1 ws)) ∧
    length rows = length weather_by_ts ∧
    Forall (λ row, int_or_missing (row !! "timestamp")) rows ∧
    df = finish_table rows ∧
    (has_column df "timestamp" = true →
     Sorted row_le df ∧
     NoDup (row_ts <$> df) ∧
     (∀ k, k ∈ row_ts <$> df ↔ k ∈ row_ts <$> rows) ∧
     (∀ row, row ∈ df →
        row ∈ rows ∧
        last (filter (λ r, row_ts r = row_ts row) (sort_values rows)) = Some row) ∧
     (stable_sort →
      ∀ row, row ∈ df →
        last (filter (λ r, row_ts r = row_ts row) rows) = Some row)) ∧
    ((∀ rec, timestamp_of (compute_weather_features rec) = timestamp_of rec) →
     ∃ tss : list Z,
       row_ts <$> df = Some <$> tss ∧
       StronglySorted Z.lt tss ∧
       (∀ t, t ∈ tss ↔ ∃ w, w ∈ ws ∧ timestamp_of w = Some t) ∧
       (∀ i row, df !! i = Some row →
          ∃ t w,
            tss !! i = Some t ∧
            last (filter (λ w, timestamp_of w = Some t) ws) = Some w ∧
            row = ms_merged
                    (merge_row pollutant_by_ts
                       (omap (day_record fetch) (enumerate 1 ws)) i t w))).
Proof.
  intros _ Hcells Hrun.
  destruct (run_combined_backfill_returns ws df tr Hrun)
    as (_ & _ & _ & tr' & _ & _ & ->).
  split; [apply last_snoc |].
  destruct (run_combined_backfill_rows ws df _ Hrun) as (wbt & pbt & Hwbt & Hpbt & Hdf).
  set (precs := omap (day_record fetch) (enumerate 1 ws)) in *.
  set (rows := ms_merged <$> merge_steps wbt pbt precs) in *.
  exists wbt, pbt, rows.
  split; [done |]. split; [done |].
  split.
  { unfold rows, merge_steps, sorted_items.
    rewrite !length_fmap, enumerate_length.
    apply Permutation_length, merge_sort_Permutation. }
  split; [by apply (merged_rows_cells ws) |].
  split; [done |]. split.
  - intros Hcol.
    assert (Hfin : df = sort_dedup rows).
    { rewrite Hdf. unfold finish_table.
      destruct (has_column rows "timestamp") eqn:Hrows; [done |].
      rewrite Hdf in Hcol. unfold finish_table in Hcol.
      rewrite Hrows in Hcol. congruence. }
    rewrite Hfin. apply sort_dedup_spec.
  - intros Hfeat.
    destruct (table_of_kept_timestamps ws df _ Hfeat Hrun)
      as (_ & tss & Hts & Hsorted & _ & Hin & Hrows).
    exists tss. split; [done |]. split; [done |]. split; [done |].
    intros i row Hrow.
    destruct (Hrows i row Hrow) as (t & w & _ & _ & Ht & Hw & _).
    exists t, w. split; [done |]. split; [done |].
    (* the row of rank [i] of the table is the merged row of rank [i] *)
    assert (Hnd : NoDup (tsdict_keys wbt)).
    { apply (index_by_NoDup _ _ _ _ Hwbt). constructor. }
    assert (Hkey : Forall (λ kv, timestamp_of kv.2 = Some kv.1) wbt).
    { apply (index_by_key _ _ _ _ Hwbt). constructor. }
    destruct (sorted_items_spec wbt Hnd) as [Hperm Hss].
    assert (Hrts : row_ts <$> rows = Some <$> (sorted_items wbt).*1).
    { by apply merge_steps_row_ts. }
    destruct (rows_ascending rows _ Hrts Hss) as [Hrsorted Hrnd].
    assert (Hfix : df = rows).
    { rewrite Hdf. unfold finish_table.
      destruct (has_column rows "timestamp"); [| done].
      by apply sort_dedup_fixed. }
    rewrite Hfix in Hrow, Hts. unfold rows in Hrow.
    rewrite list_lookup_fmap, merge_steps_lookup in Hrow.
    destruct (sorted_items wbt !! i) as [[t' w']|] eqn:Hi; [| done].
    injection Hrow as <-. simpl.
    assert (t' = t) as ->.
    { assert (Hl : (row_ts <$> rows) !! i = Some (Some t')).
      { rewrite Hrts, !list_lookup_fmap, Hi. done. }
      rewrite Hts, list_lookup_fmap, Ht in Hl. by injection Hl. }
    pose proof (sorted_items_elem_of ws wbt i t w' Hwbt Hi) as Hlast.
    by assert (w' = w) as -> by congruence.
Qed.
End Table.

(** ** The history handed to the pollutant feature computer *)

(** What the code does: the row of rank [i] among the ascending weather
    timestamps gets the slice [i-10 .. i) of [pollutant_records], whatever
    the place of its matched record in that list. *)
Lemma merge_row_hist `{PyParsers} `{FeatureComputers} (pollutant_by_ts : tsdict)
    (pollutant_records : list record) (i : nat) (ts : Z) (weather_raw : record)
    (h : list record) :
  ms_hist (merge_row pollutant_by_ts pollutant_records i ts weather_raw) = Some h →
  h = drop (i - 10) (take i pollutant_records).
Proof.
  unfold merge_row. cbn [ms_hist].
  destruct (dict_truthy _); [| done]. intros [= <-].
  unfold hist_slice. by destruct i.
Qed.

(** C7 fails on the code once a day has failed.  Weather at 100, 200 and
    300 seconds, the fetch of the first day raising: [pollutant_records]
    is the readings at 200 and 300, the row at 200 is matched to the
    reading at 200, first of the list, with no record before it, and yet
    its history is that very reading; the row at 300 gets its own reading
    in its history too. *)
Theorem hist_slice_after_failed_day `{PyParsers} `{FeatureComputers} :
  fmap (M := option) (fmap (M := list) step_view)
    (collect_merge_steps first_day_fails
       [weather_at 100; weather_at 200; weather_at 300] []).1
  = Some [ (100, None, None);
           (200, Some (pollutant_at 200), Some [pollutant_at 200]);
           (300, Some (pollutant_at 300),
                 Some [pollutant_at 200; pollutant_at 300]) ].
Proof.
  vm_cast_no_check
    (@eq_refl (option (list (Z * option record * option (list record))))
       (Some [ (100, None, None);
               (200, Some (pollutant_at 200), Some [pollutant_at 200]);
               (300, Some (pollutant_at 300),
                     Some [pollutant_at 200; pollutant_at 300]) ])).
Qed.

(** ** The claims on sample runs *)

Lemma sample_days_have_timestamps :
  Forall has_timestamp [weather_at 100; weather_at 200; weather_at 300].
Proof. repeat constructor; by eexists. Defined.

(** C6 on three days of which the first fails: two successes, one
    failure, three calls. *)
Lemma backfill_failure_semantics_witness :
  ∃ st,
    fetch_pollutants first_day_fails
      [weather_at 100; weather_at 200; weather_at 300] []
    = (Some st,
       [CallFetchPollutant 0 100; Sleep; CallFetchPollutant 1 200; Sleep;
        CallFetchPollutant 2 300; Sleep]) ∧
    pollutant_records st = [pollutant_at 200; pollutant_at 300] ∧
    success st = 2%nat ∧ failed st = 1%nat.
Proof.
  destruct (proj2 (@backfill_failure_semantics no_text keep_features
                     merge_sort_values first_day_fails)
              [weather_at 100; weather_at 200; weather_at 300]
              sample_days_have_timestamps)
    as (Hrun & _).
  eexists. split; [exact Hrun |].
  split; [| split]; reflexivity.
Defined.

(** C8 on two runs.  Three observations, the first and the last of one
    day, under feature computers that stamp a row with the start of its
    day: the merged rows are stamped 86400, 86400 and 172800, and the table
    keeps one row for each of the two days, the one built last.  Weather
    records at 200, 100 and 200 again, under feature computers that hand
    the timestamp on: the table has the timestamps 100 and 200 in strictly
    ascending order. *)
Lemma backfill_table_one_row_per_timestamp_witness :
  (∃ df tr,
     @run_combined_backfill no_text day_start_features insertion_sort_values
       (Some [weather_at 90000; weather_at 180000; weather_at 100000])
       first_day_fails []
     = (Some df, tr) ∧
     last tr = Some (ToCsv df) ∧
     Sorted row_le df ∧
     NoDup (row_ts <$> df) ∧
     ∃ rows : dataframe,
       df = @finish_table insertion_sort_values rows ∧
       ∀ row, row ∈ df →
         last (filter (λ r, row_ts r = row_ts row) rows) = Some row) ∧
  (∃ df tr,
     @run_combined_backfill no_text keep_features merge_sort_values
       (Some [weather_at 200; weather_at 100; weather_at 200]) first_day_fails []
     = (Some df, tr) ∧
     last tr = Some (ToCsv df) ∧
     ∃ tss, row_ts <$> df = Some <$> tss ∧ StronglySorted Z.lt tss).
Proof.
  split.
  - destruct (@run_combined_backfill no_text day_start_features insertion_sort_values
                (Some [weather_at 90000; weather_at 180000; weather_at 100000])
                first_day_fails []) as [[df|] tr] eqn:Hrun.
    + exists df, tr. split; [reflexivity |].
      assert (Hcol : has_column df "timestamp" = true).
      { change (match (Some df, tr).1 with
                | Some d => has_column d "timestamp"
                | None => false
                end = true).
        rewrite <- Hrun. vm_cast_no_check (@eq_refl bool true). }
      destruct (@backfill_table_one_row_per_timestamp no_text day_start_features
                  insertion_sort_values first_day_fails
                  [weather_at 90000; weather_at 180000; weather_at 100000] df tr)
        as (Hlast & wbt & pbt & rows & _ & _ & _ & _ & Hdf & Hsort & _).
      * repeat constructor; by eexists.
      * repeat (apply Forall_cons; split; [vm_compute; exact I |]).
        constructor.
      * exact Hrun.
      * destruct (Hsort Hcol) as (Hsorted & Hnd & _ & _ & Hkept).
        split; [exact Hlast |]. split; [exact Hsorted |]. split; [exact Hnd |].
        exists rows. split; [exact Hdf |].
        exact (Hkept insertion_sort_stable).
    + exfalso.
      apply (f_equal (λ out : option dataframe * list event, is_Some_proj out.1)) in Hrun.
      vm_compute in Hrun. discriminate Hrun.
  - destruct (@run_combined_backfill no_text keep_features merge_sort_values
                (Some [weather_at 200; weather_at 100; weather_at 200])
                first_day_fails []) as [[df|] tr] eqn:Hrun.
    + exists df, tr. split; [reflexivity |].
      destruct (@backfill_table_one_row_per_timestamp no_text keep_features
                  merge_sort_values first_day_fails
                  [weather_at 200; weather_at 100; weather_at 200] df tr)
        as (Hlast & wbt & pbt & rows & _ & _ & _ & _ & _ & _ & Hkeep).
      * repeat constructor; by eexists.
      * repeat (apply Forall_cons; split; [vm_compute; exact I |]).
        constructor.
      * exact Hrun.
      * destruct (Hkeep (λ rec, eq_refl)) as (tss & Hts & Hsorted & _).
        split; [exact Hlast |]. exists tss.
        split; [exact Hts | exact Hsorted].
    + exfalso.
      apply (f_equal (λ out : option dataframe * list event, is_Some_proj out.1)) in Hrun.
      vm_compute in Hrun. discriminate Hrun.
Defined.

(** The table of that run: of the two rows stamped 86400 the one observed
    at 100000, built last, is kept. *)
Example day_start_sample :
  fmap (M := list) (λ row, (row !! "timestamp", row !! "observed_at"))
    <$> (@run_combined_backfill no_text day_start_features insertion_sort_values
           (Some [weather_at 90000; weather_at 180000; weather_at 100000])
           first_day_fails []).1
  = Some [ (Some (VInt 86400), Some (VInt 100000));
           (Some (VInt 172800), Some (VInt 180000)) ].
Proof.
  vm_cast_no_check
    (@eq_refl (option (list (option pyval * option pyval)))
       (Some [ (Some (VInt 86400), Some (VInt 100000));
               (Some (VInt 172800), Some (VInt 180000)) ])).
Qed.

(** The nearest-match scenario of the specification: a reading at 205
    seconds goes to the weather timestamp 200. *)
Example closest_ts_205 :
  closest_ts [(100, weather_at 100); (200, weather_at 200); (300, weather_at 300)] 205
  = Some 200.
Proof. reflexivity. Qed.

(** Sorting and dropping duplicates with the merge sort, on rows at 300,
    100 and 300 again: one row is left for each timestamp. *)
Example sort_dedup_sample :
  row_ts <$> @sort_dedup merge_sort_values
               [weather_at 300; weather_at 100; pollutant_at 300]
  = [Some 100; Some 300].
Proof. vm_compute. reflexivity. Qed.

(** The partial-failure scenario of the specification: ten weather days
    and three failed pollutant fetches end in ten rows, seven of them with
    pollutant features, and a logged tally of seven successes and three
    failures. *)
Example partial_failure_scenario :
  let out := @run_combined_backfill no_text keep_features merge_sort_values
               (Some ten_days) three_days_fail [] in
  (length <$> out.1,
   length ∘ filter (λ row, is_Some (row !! "pollutant_co")) <$> out.1,
   filter (λ e, is_tally e = true) out.2)
  = (Some 10%nat, Some 7%nat, [LogTally 7 3]).
Proof. vm_compute. reflexivity. Qed.

(** * Further properties of the record cleaners *)

Section CleaningMore.
Context `{PyParsers}.

(** Every field of [clean_pollutant_record], key by key. *)
Lemma clean_pollutant_record_lookup (rec : record) (k : string) :
  clean_pollutant_record rec !! k =
  (if decide (k = "aqi") then aqi_checked
   else if decide (k ∈ concentration_keys)
        then clamped (λ f, py_max (NFloat (flt_of_Z 0)) (NFloat f))
        else id) <$> (nan_to_none <$> rec !! k).
Proof.
  destruct (decide (k = "aqi")) as [->|Haqi].
  - apply clean_pollutant_record_aqi.
  - destruct (decide (k ∈ concentration_keys)) as [Hin|Hnin].
    + by apply clean_pollutant_record_concentration.
    + unfold clean_pollutant_record.
      rewrite try_aqi_lookup, decide_False by done.
      rewrite foldl_clamp_other, replace_nan_lookup by done.
      by destruct (rec !! k).
Qed.

Lemma nan_to_none_idemp (v : pyval) : nan_to_none (nan_to_none v) = nan_to_none v.
Proof. by destruct v as [| | |[]| |]. Qed.

Lemma nan_to_none_not_nan (v : pyval) : _is_nan (nan_to_none v) = false.
Proof. by destruct v as [| | |[]| |]. Qed.

(** What the clamp [max(0.0, float(v))] leaves in a field: [None], or a
    float that is not NaN and not below zero. *)
Lemma clamped_nonneg (v : pyval) :
  clamped (λ f, py_max (NFloat (flt_of_Z 0)) (NFloat f)) v = VNone ∨
  ∃ f, clamped (λ f, py_max (NFloat (flt_of_Z 0)) (NFloat f)) v = VFloat f ∧
       flt_le (Fin 0) f = true ∧
       py_max (NFloat (flt_of_Z 0)) (NFloat f) = NFloat f.
Proof.
  unfold clamped. destruct (is_None v) eqn:Hn.
  { left. by destruct v. }
  destruct (py_float v) as [f|]; [| by left]. right.
  unfold py_max, num_lt, num_val.
  destruct (flt_lt (flt_of_Z 0) f) eqn:Hlt.
  - exists f. split; [done |]. split; [| by rewrite Hlt].
    destruct f as [q| | |]; try done.
    apply flt_lt_Fin in Hlt. apply flt_le_Fin.
    unfold inject_Z in Hlt. lra.
  - exists (flt_of_Z 0). split; [done |]. split; by vm_compute.
Qed.

(** What the clamp [max(0, min(100, float(v)))] leaves in a field: [None],
    the integers 0 or 100, or a float strictly between them. *)
Lemma clamped_percent (v : pyval) :
  let g := λ f, py_max (NInt 0) (py_min (NInt 100) (NFloat f)) in
  clamped g v = VNone ∨ clamped g v = VInt 0 ∨ clamped g v = VInt 100 ∨
  ∃ q, clamped g v = VFloat (Fin q) ∧ (0 < q)%Q ∧ (q < 100)%Q.
Proof.
  intros g. unfold clamped. destruct (is_None v) eqn:Hn.
  { left. by destruct v. }
  destruct (py_float v) as [f|]; [| by left]. right.
  unfold g, py_max, py_min, num_lt, num_val.
  destruct (flt_lt f (flt_of_Z 100)) eqn:H100.
  - destruct (flt_lt (flt_of_Z 0) f) eqn:H0; [| by left].
    right; right. destruct f as [q| | |]; try done.
    apply flt_lt_Fin in H100, H0. unfold inject_Z in *.
    exists q. split; [done |]. split; lra.
  - right; left. by vm_compute.
Qed.

Lemma clamped_nonneg_idemp (v : pyval) :
  let g := λ f, py_max (NFloat (flt_of_Z 0)) (NFloat f) in
  nan_to_none (clamped g v) = clamped g v ∧
  clamped g (clamped g v) = clamped g v.
Proof.
  intros g. subst g. destruct (clamped_nonneg v) as [->|(f & -> & Hle & Hmax)].
  - done.
  - split.
    + destruct f; done.
    + unfold clamped. simpl. by rewrite Hmax.
Qed.

Lemma clamped_percent_idemp (v : pyval) :
  let g := λ f, py_max (NInt 0) (py_min (NInt 100) (NFloat f)) in
  nan_to_none (clamped g v) = clamped g v ∧
  clamped g (clamped g v) = clamped g v.
Proof.
  intros g. subst g.
  destruct (clamped_percent v) as [->|[->|[->|(q & -> & H0 & H100)]]]; try done.
  split; [done |].
  unfold clamped, py_max, py_min, num_lt, num_val. simpl.
  assert (E100 : negb (Qle_bool (inject_Z 100) q) = true).
  { apply (flt_lt_Fin q (inject_Z 100)). unfold inject_Z. lra. }
  rewrite E100. simpl.
  assert (E0 : negb (Qle_bool q (inject_Z 0)) = true).
  { apply (flt_lt_Fin (inject_Z 0) q). unfold inject_Z. lra. }
  by rewrite E0.
Qed.

Lemma aqi_checked_range (v : pyval) :
  aqi_checked v = VNone ∨ ∃ i, aqi_checked v = VInt i ∧ 1 ≤ i ≤ 5.
Proof.
  unfold aqi_checked. destruct (is_None v) eqn:Hn.
  { left. by destruct v. }
  destruct (py_int v) as [i|]; [| by left].
  destruct (Z.leb_spec 1 i), (Z.leb_spec i 5); simpl; try by left.
  right. by exists i.
Qed.

Lemma aqi_checked_idemp (v : pyval) :
  nan_to_none (aqi_checked v) = aqi_checked v ∧
  aqi_checked (aqi_checked v) = aqi_checked v.
Proof.
  destruct (aqi_checked_range v) as [->|(i & -> & Hi)]; [done |].
  split; [done |]. unfold aqi_checked. simpl.
  destruct (Z.leb_spec 1 i), (Z.leb_spec i 5); simpl; (done || lia).
Qed.
End CleaningMore.

(** X1: the cleaners neither add nor drop a key: a field that is absent
    stays absent (no clamped field is created), and every field of the
    input is a field of the output. *)
Theorem cleaners_keep_keys `{PyParsers} (rec : record) :
  dom (clean_weather_record rec) = dom rec ∧
  dom (clean_pollutant_record rec) = dom rec.
Proof.
  split; apply set_eq; intros k; rewrite !elem_of_dom.
  - rewrite clean_weather_record_lookup.
    repeat case_decide; rewrite ?fmap_is_Some; done.
  - rewrite clean_pollutant_record_lookup. by rewrite !fmap_is_Some.
Qed.

(** X2: cleaning a cleaned record changes nothing, for either cleaner. *)
Theorem cleaners_idempotent `{PyParsers} (rec : record) :
  clean_weather_record (clean_weather_record rec) = clean_weather_record rec ∧
  clean_pollutant_record (clean_pollutant_record rec) = clean_pollutant_record rec.
Proof.
  split; apply map_eq; intros k.
  - rewrite (clean_weather_record_lookup (clean_weather_record rec)).
    rewrite !clean_weather_record_lookup.
    destruct (decide (k = "humidity")) as [->|Hh].
    + destruct (rec !! "humidity") as [v|]; [| done]. simpl.
      destruct (clamped_percent_idemp v) as [Hnan Hidem].
      by rewrite Hnan, Hidem, Hnan.
    + destruct (decide (k = "visibility")) as [->|Hv].
      * destruct (rec !! "visibility") as [v|]; [| done]. simpl.
        destruct (clamped_nonneg_idemp v) as [Hnan Hidem].
        by rewrite Hnan, Hidem, Hnan.
      * destruct (rec !! k) as [v|]; [| done]. simpl.
        by rewrite nan_to_none_idemp.
  - rewrite (clean_pollutant_record_lookup (clean_pollutant_record rec)).
    rewrite !clean_pollutant_record_lookup.
    destruct (rec !! k) as [v|]; [| done]. simpl.
    destruct (decide (k = "aqi")) as [->|Haqi].
    + destruct (aqi_checked_idemp (nan_to_none v)) as [Hnan Hidem].
      by rewrite Hnan, Hidem.
    + destruct (decide (k ∈ concentration_keys)).
      * destruct (clamped_nonneg_idemp (nan_to_none v)) as [Hnan Hidem].
        by rewrite Hnan, Hidem.
      * simpl. by rewrite nan_to_none_idemp.
Qed.

(** X3: whatever the input, no field of a cleaned pollutant record holds
    NaN, a concentration is [None] or a float that is not below zero, and
    [aqi] is [None] or an integer from 1 to 5. *)
Theorem clean_pollutant_record_ranges `{PyParsers} (rec : record) (k : string)
    (v : pyval) :
  clean_pollutant_record rec !! k = Some v →
  _is_nan v = false ∧
  (k ∈ concentration_keys →
   v = VNone ∨ ∃ f, v = VFloat f ∧ flt_le (Fin 0) f = true) ∧
  (k = "aqi" → v = VNone ∨ ∃ i, v = VInt i ∧ 1 ≤ i ≤ 5).
Proof.
  rewrite clean_pollutant_record_lookup.
  destruct (rec !! k) as [v0|]; [| done]. simpl. intros [= <-].
  destruct (decide (k = "aqi")) as [->|Haqi].
  - destruct (aqi_checked_range (nan_to_none v0)) as [->|(i & -> & Hi)].
    + split; [done |]. split; [| by left].
      intros Hin. by destruct aqi_not_concentration.
    + split; [done |]. split; [| right; by exists i].
      intros Hin. by destruct aqi_not_concentration.
  - destruct (decide (k ∈ concentration_keys)) as [Hin|Hnin].
    + destruct (clamped_nonneg (nan_to_none v0)) as [->|(f & -> & Hle & _)].
      * split; [done |]. split; [by left | done].
      * split; [by destruct f |]. split; [| done].
        right. by exists f.
    + simpl. split; [apply nan_to_none_not_nan |]. split; done.
Qed.

(** X3 on a record with a negative concentration. *)
Lemma clean_pollutant_record_ranges_witness :
  _is_nan (VFloat (Fin 0)) = false ∧
  ("co" ∈ concentration_keys →
   VFloat (Fin 0) = VNone ∨ ∃ f, VFloat (Fin 0) = VFloat f ∧ flt_le (Fin 0) f = true) ∧
  ("co" = "aqi" → VFloat (Fin 0) = VNone ∨ ∃ i, VFloat (Fin 0) = VInt i ∧ 1 ≤ i ≤ 5).
Proof.
  apply (@clean_pollutant_record_ranges no_text
           {[ "co" := VFloat (Fin (-32 # 10)) ]} "co" (VFloat (Fin 0))).
  by rewrite clean_pollutant_record_lookup, lookup_singleton_eq.
Defined.

(** X4: whatever the input, no field of a cleaned weather record holds
    NaN, the humidity is [None] or a number from 0 to 100, and the
    visibility is [None] or a float that is not below zero. *)
Theorem clean_weather_record_ranges `{PyParsers} (rec : record) (k : string)
    (v : pyval) :
  clean_weather_record rec !! k = Some v →
  _is_nan v = false ∧
  (k = "humidity" →
   v = VNone ∨ ∃ x, val_num v = Some x ∧
                    flt_le (Fin 0) x = true ∧ flt_le x (Fin 100) = true) ∧
  (k = "visibility" →
   v = VNone ∨ ∃ f, v = VFloat f ∧ flt_le (Fin 0) f = true).
Proof.
  rewrite clean_weather_record_lookup. intros Hv.
  split.
  { destruct (if decide (k = "humidity") then _ else _) as [v0|]; [| done].
    injection Hv as <-. apply nan_to_none_not_nan. }
  split; intros ->.
  - rewrite decide_True in Hv by done.
    destruct (rec !! "humidity") as [v0|]; [| done]. simpl in Hv.
    destruct (clamped_percent_idemp v0) as [Hnan _]. rewrite Hnan in Hv.
    injection Hv as <-.
    destruct (clamped_percent v0) as [->|[->|[->|(q & -> & H0 & H100)]]].
    + by left.
    + right. eexists. split; [done |]. by vm_compute.
    + right. eexists. split; [done |]. by vm_compute.
    + right. eexists. split; [done |]. split; apply flt_le_Fin; lra.
  - rewrite decide_False, decide_True in Hv by done.
    destruct (rec !! "visibility") as [v0|]; [| done]. simpl in Hv.
    destruct (clamped_nonneg_idemp v0) as [Hnan _]. rewrite Hnan in Hv.
    injection Hv as <-.
    destruct (clamped_nonneg v0) as [->|(f & -> & Hle & _)]; [by left |].
    right. by exists f.
Qed.

(** X4 on a record with a NaN humidity. *)
Lemma clean_weather_record_ranges_witness :
  _is_nan (VInt 100) = false ∧
  ("humidity" = "humidity" →
   VInt 100 = VNone ∨ ∃ x, val_num (VInt 100) = Some x ∧
                    flt_le (Fin 0) x = true ∧ flt_le x (Fin 100) = true) ∧
  ("humidity" = "visibility" →
   VInt 100 = VNone ∨ ∃ f, VInt 100 = VFloat f ∧ flt_le (Fin 0) f = true).
Proof.
  apply (@clean_weather_record_ranges no_text
           {[ "humidity" := VFloat NaN ]} "humidity" (VInt 100)).
  by rewrite clean_weather_record_lookup, decide_True, lookup_singleton_eq.
Defined.

(** X5: a visibility that converts to a number other than NaN comes out as
    the float [max(0, v)]; one that is present and does not convert comes
    out as [None]. *)
Theorem clean_weather_record_visibility `{PyParsers} (rec : record) (v : pyval) :
  rec !! "visibility" = Some v →
  (∀ f, py_float v = Some f → f ≠ NaN →
        ∃ x, clean_weather_record rec !! "visibility" = Some (VFloat x) ∧
             flt_eq x (flt_max (Fin 0) f)) ∧
  (py_float v = None → clean_weather_record rec !! "visibility" = Some VNone).
Proof.
  intros Hv.
  assert (Hlook : clean_weather_record rec !! "visibility" =
    Some (nan_to_none (clamped (λ f, py_max (NFloat (flt_of_Z 0)) (NFloat f)) v))).
  { by rewrite clean_weather_record_lookup, decide_False, decide_True, Hv. }
  rewrite Hlook. split.
  - intros f Hf Hnan.
    destruct (clamped_nonneg_idemp v) as [-> _].
    rewrite (clamped_float _ v f Hf).
    destruct (concentration_clamp_value f Hnan) as (_ & Heq & _).
    unfold py_max in *. destruct (num_lt _ _); eexists; split; done.
  - intros Hf. by rewrite clamped_unparseable.
Qed.

(** X5 at a visibility of -7. *)
Lemma clean_weather_record_visibility_witness :
  ∃ x, @clean_weather_record no_text {[ "visibility" := VInt (-7) ]} !! "visibility"
       = Some (VFloat x) ∧
       flt_eq x (flt_max (Fin 0) (Fin (-7))).
Proof.
  refine (proj1 (@clean_weather_record_visibility no_text
                   {[ "visibility" := VInt (-7) ]} (VInt (-7)) _)
            (Fin (-7)) _ _).
  - reflexivity.
  - reflexivity.
  - discriminate.
Defined.

(** X6: the cleaners touch nothing else: a field outside the clamped ones
    comes back as it was unless it is NaN, and a field that holds [None]
    holds [None] afterwards, clamped or not. *)
Theorem cleaners_leave_other_fields `{PyParsers} (rec : record) (k : string)
    (v : pyval) :
  rec !! k = Some v →
  (k ≠ "humidity" → k ≠ "visibility" →
   clean_weather_record rec !! k = Some (if _is_nan v then VNone else v)) ∧
  (k ≠ "aqi" → k ∉ concentration_keys →
   clean_pollutant_record rec !! k = Some (if _is_nan v then VNone else v)) ∧
  (v = VNone →
   clean_weather_record rec !! k = Some VNone ∧
   clean_pollutant_record rec !! k = Some VNone).
Proof.
  intros Hv. split; [| split].
  - intros Hh Hvis.
    by rewrite clean_weather_record_lookup, !decide_False, Hv.
  - intros Haqi Hconc.
    by rewrite clean_pollutant_record_lookup, !decide_False, Hv.
  - intros ->.
    rewrite clean_weather_record_lookup, clean_pollutant_record_lookup, Hv.
    split; by repeat case_decide.
Qed.

(** X6 on a temperature next to a humidity. *)
Lemma cleaners_leave_other_fields_witness :
  @clean_weather_record no_text
     {[ "temperature" := VFloat (Fin (-3)); "humidity" := VInt 150 ]} !! "temperature"
  = Some (VFloat (Fin (-3))).
Proof.
  refine (proj1 (@cleaners_leave_other_fields no_text
                   {[ "temperature" := VFloat (Fin (-3)); "humidity" := VInt 150 ]}
                   "temperature" (VFloat (Fin (-3))) _) _ _).
  - reflexivity.
  - discriminate.
  - discriminate.
Defined.

(** * src/dashboard/components/metrics.py *)

Module Metrics.
Import Predictor.

(** [format(x, ".1f")]: one decimal, the exact value rounded to the nearest
    tenth, ties to even; a negative value that rounds to zero keeps its
    sign. *)
Definition format_1f (x : pyfloat) : string :=
  match x with
  | Fin q =>
      let n := Z.abs (round_half_even (q * inject_Z 10)%Q) in
      (if negb (Qle_bool (0 # 1) q) then "-" else "")
        +:+ pretty (n / 10) +:+ "." +:+ pretty (n mod 10)
  | PInf => "inf"
  | NInf => "-inf"
  | NaN => "nan"
  end.

(** The double quote, for the markup below. *)
Definition dq : string := String (Ascii.ascii_of_nat 34) EmptyString.

(** Where a widget is drawn: on the page, or in one of the four columns. *)
Inductive place : Type :=
  | Page
  | Column (i : nat).

(** The Streamlit calls of [display_prediction_result]. *)
Inductive widget : Type :=
  | Markdown (body : string)
  | Metric (label value : string)
  | Info (body : string)
  | Error (body : string)
  | Success (body : string).

Definition display_prediction_result (prediction : pyfloat) : list (place * widget) :=
  (* Get AQI categorization *)
  let aqi_info := categorize_aqi prediction in
  let alert := generate_aqi_alert prediction in
  (* Display alert if hazardous *)
  (match alert with
   | Some text =>
       if negb (String.eqb text "")
       then [(Page, Markdown ("<div class=" +:+ dq +:+ "alert-box alert-danger"
                              +:+ dq +:+ ">" +:+ text +:+ "</div>"))]
       else []
   | None => []
   end)
  ++ [ (Column 1, Metric "AQI Value" (format_1f prediction));
       (Column 2,
        Markdown ("<div class=" +:+ dq +:+ "metric-card" +:+ dq
                  +:+ " style=" +:+ dq +:+ "background-color: "
                  +:+ color aqi_info +:+ "20; "
                  +:+ "border-left: 5px solid " +:+ color aqi_info +:+ ";"
                  +:+ dq +:+ ">"
                  +:+ "<h3>" +:+ category aqi_info +:+ "</h3>"
                  +:+ "<p>Level " +:+ pretty (level aqi_info) +:+ "</p>"
                  +:+ "</div>"));
       (Column 3, Info (message aqi_info));
       (Column 4,
        if is_hazardous aqi_info
        then Error "⚠️ HAZARDOUS"
        else Success "✓ SAFE") ].

(** The fourth metric of [display_aqi_metrics],
    [len(df[df[target_col] > 200])], over the values of the column; the
    three others are float aggregates of pandas and are left out. *)
Definition hazardous_count (values : list pyfloat) : nat :=
  length (filter (λ x, flt_lt (flt_of_Z 200) x = true) values).

End Metrics.

(** * Further properties of the predictor and of its display *)

Import Metrics.

Definition is_alert_box (w : place * widget) : Prop :=
  match w with
  | (Page, Markdown _) => True
  | _ => False
  end.

Lemma categorize_aqi_NaN :
  category (categorize_aqi NaN) = "Hazardous" ∧ level (categorize_aqi NaN) = 6.
Proof. done. Qed.

(** X7: the severity level never decreases when the value grows, over the
    finite values and the two infinities; so neither does the hazard
    flag. *)
Theorem categorize_aqi_monotone (a b : pyfloat) :
  flt_le a b = true →
  level (categorize_aqi a) ≤ level (categorize_aqi b) ∧
  (is_hazardous (categorize_aqi a) = true → is_hazardous (categorize_aqi b) = true).
Proof.
  intros Hle.
  assert (Hlevel : level (categorize_aqi a) ≤ level (categorize_aqi b)).
  { destruct a as [p| | |], b as [q| | |]; try done.
    - apply flt_le_Fin in Hle. aqi_bands p; aqi_bands q; (lia || lra).
    - aqi_bands p; vm_compute; discriminate.
    - aqi_bands q; vm_compute; discriminate. }
  split; [done |].
  destruct (categorize_aqi_level a) as [_ ->].
  destruct (categorize_aqi_level b) as [_ ->].
  rewrite !Z.leb_le. lia.
Qed.

(** X7 at 120 and 180. *)
Lemma categorize_aqi_monotone_witness :
  level (categorize_aqi (Fin 120)) ≤ level (categorize_aqi (Fin 180)).
Proof.
  apply (proj1 (categorize_aqi_monotone (Fin 120) (Fin 180) eq_refl)).
Defined.

Lemma alert_text_nonempty (x : pyfloat) (text : string) :
  generate_aqi_alert x = Some text → String.eqb text "" = false.
Proof.
  unfold generate_aqi_alert. destruct (is_hazardous _); [| done].
  by intros [= <-].
Qed.

(** X8: the page of a prediction shows the alert box exactly when it shows
    the badge HAZARDOUS, which is exactly when the hazard flag is set (for
    a real value, above 150); otherwise it shows the badge SAFE and no
    alert box. *)
Theorem display_prediction_result_badge (x : pyfloat) :
  (Exists is_alert_box (display_prediction_result x) ↔
   is_hazardous (categorize_aqi x) = true) ∧
  (last (display_prediction_result x) = Some (Column 4, Error "⚠️ HAZARDOUS") ↔
   is_hazardous (categorize_aqi x) = true) ∧
  (last (display_prediction_result x) = Some (Column 4, Success "✓ SAFE") ↔
   is_hazardous (categorize_aqi x) = false) ∧
  (∀ q, x = Fin q →
        (Exists is_alert_box (display_prediction_result x) ↔ (150 < q)%Q)).
Proof.
  assert (Hbox : Exists is_alert_box (display_prediction_result x) ↔
                 is_hazardous (categorize_aqi x) = true).
  { unfold display_prediction_result.
    destruct (generate_aqi_alert x) as [text|] eqn:Halert.
    - rewrite (alert_text_nonempty x text Halert). simpl.
      split; [| intros _; by left].
      intros _. apply generate_aqi_alert_hazardous.
      exists text. split; [done |].
      intros ->. by apply alert_text_nonempty in Halert.
    - split.
      + simpl. intros Hex. repeat (apply Exists_cons in Hex as [[]|Hex]).
        by apply Exists_nil in Hex.
      + intros Hhaz. apply generate_aqi_alert_hazardous in Hhaz as (s & Hs & _).
        congruence. }
  assert (Hlast : last (display_prediction_result x) =
                  Some (Column 4, if is_hazardous (categorize_aqi x)
                                  then Error "⚠️ HAZARDOUS" else Success "✓ SAFE")).
  { unfold display_prediction_result. rewrite last_app. reflexivity. }
  split; [exact Hbox |].
  split; [| split].
  - rewrite Hlast. destruct (is_hazardous _); split; (done || discriminate).
  - rewrite Hlast. destruct (is_hazardous _); split; (done || discriminate).
  - intros q ->. rewrite Hbox. apply is_hazardous_Fin.
Qed.

(** X9: the metric "Hazardous Days" counts the values above 200, each of
    which [categorize_aqi] flags hazardous; the flagged values it leaves
    out are NaN and those above 150 up to 200, so the count never exceeds
    the number of flagged values. *)
Theorem hazardous_count_below_flagged (values : list pyfloat) :
  (hazardous_count values
   ≤ length (filter (λ x, is_hazardous (categorize_aqi x) = true) values))%nat ∧
  (∀ x, flt_lt (flt_of_Z 200) x = true →
        is_hazardous (categorize_aqi x) = true) ∧
  (∀ x, is_hazardous (categorize_aqi x) = true →
        flt_lt (flt_of_Z 200) x = false →
        x = NaN ∨ ∃ q, x = Fin q ∧ (150 < q)%Q ∧ (q <= 200)%Q).
Proof.
  assert (Hflag : ∀ x, flt_lt (flt_of_Z 200) x = true →
                       is_hazardous (categorize_aqi x) = true).
  { intros [q| | |] Hlt; try done.
    apply flt_lt_Fin in Hlt. apply is_hazardous_Fin.
    unfold inject_Z in Hlt. lra. }
  split; [| split; [exact Hflag |]].
  - unfold hazardous_count.
    induction values as [|x values IH]; [done |].
    destruct (flt_lt (flt_of_Z 200) x) eqn:Hlt.
    + rewrite (filter_cons_True (λ x, flt_lt (flt_of_Z 200) x = true)) by done.
      rewrite (filter_cons_True (λ x, is_hazardous (categorize_aqi x) = true))
        by (by apply Hflag).
      cbn [length]. lia.
    + rewrite (filter_cons_False (λ x, flt_lt (flt_of_Z 200) x = true))
        by (by rewrite Hlt).
      rewrite filter_cons. destruct (decide _); cbn [length]; lia.
  - intros [q| | |] Hhaz Hlt; try done; [| by left].
    right. exists q. split; [done |].
    apply is_hazardous_Fin in Hhaz. apply flt_lt_Fin_false in Hlt.
    unfold inject_Z in Hlt. split; lra.
Qed.

(** * Further properties of the combined backfill *)

(** ** Nearest timestamp *)

(** The scan of [min]: the keys before the one in hand are farther, the
    keys scanned after it are no nearer. *)
Lemma min_by_from_leftmost (key : Z → Z) (pre mid : list Z) (best : Z)
    (rest : list Z) :
  (∀ t, t ∈ pre → key best < key t) →
  (∀ t, t ∈ mid → key best ≤ key t) →
  ∃ l1 l2,
    pre ++ best :: mid ++ rest = l1 ++ min_by_from key best rest :: l2 ∧
    (∀ t, t ∈ l1 → key (min_by_from key best rest) < key t) ∧
    (∀ t, t ∈ l2 → key (min_by_from key best rest) ≤ key t).
Proof.
  revert pre mid best. induction rest as [|t0 rest IH]; intros pre mid best Hpre Hmid.
  - exists pre, mid. by rewrite app_nil_r.
  - simpl. destruct (Z.ltb_spec (key t0) (key best)) as [Hlt|Hge].
    + destruct (IH (pre ++ best :: mid) [] t0) as (l1 & l2 & Heq & H1 & H2).
      * intros t [Ht|[->|Ht]%elem_of_cons]%elem_of_app.
        -- specialize (Hpre t Ht). lia.
        -- done.
        -- specialize (Hmid t Ht). lia.
      * by intros t ?%elem_of_nil.
      * exists l1, l2. split; [| done].
        rewrite <- Heq. by rewrite <- !app_assoc.
    + destruct (IH pre (mid ++ [t0]) best) as (l1 & l2 & Heq & H1 & H2).
      * done.
      * intros t [Ht| ->%list_elem_of_singleton]%elem_of_app; [by apply Hmid | done].
      * exists l1, l2. split; [| done].
        rewrite <- Heq. by rewrite <- !app_assoc.
Qed.

(** X10: the nearest weather timestamp is the first, in the order in which
    the weather records came, of those at the least distance: every
    timestamp before it is strictly farther from the reading, every one
    after it is no nearer. *)
Theorem closest_ts_leftmost (weather_by_ts : tsdict) (p_ts c : Z) :
  closest_ts weather_by_ts p_ts = Some c →
  ∃ l1 l2,
    tsdict_keys weather_by_ts = l1 ++ c :: l2 ∧
    (∀ t, t ∈ l1 → Z.abs (c - p_ts) < Z.abs (t - p_ts)) ∧
    (∀ t, t ∈ l2 → Z.abs (c - p_ts) ≤ Z.abs (t - p_ts)).
Proof.
  unfold closest_ts, min_by.
  destruct (tsdict_keys weather_by_ts) as [|t0 rest]; [done |].
  intros [= <-].
  destruct (min_by_from_leftmost (λ t, Z.abs (t - p_ts)) [] [] t0 rest)
    as (l1 & l2 & Heq & H1 & H2); try (by intros t ?%elem_of_nil).
  by exists l1, l2.
Qed.

(** X10 on a reading at 150 between weather at 200 and at 100, in that
    order: both are 50 away and the first one is taken. *)
Lemma closest_ts_leftmost_witness :
  ∃ l1 l2,
    tsdict_keys [(200, weather_at 200); (100, weather_at 100)] = l1 ++ 200 :: l2 ∧
    (∀ t, t ∈ l1 → Z.abs (200 - 150) < Z.abs (t - 150)) ∧
    (∀ t, t ∈ l2 → Z.abs (200 - 150) ≤ Z.abs (t - 150)).
Proof.
  apply (closest_ts_leftmost [(200, weather_at 200); (100, weather_at 100)] 150 200).
  reflexivity.
Defined.

(** X11: a reading stamped with a weather timestamp is matched to that
    very timestamp. *)
Theorem closest_ts_exact (weather_by_ts : tsdict) (p_ts : Z) :
  p_ts ∈ tsdict_keys weather_by_ts →
  closest_ts weather_by_ts p_ts = Some p_ts.
Proof.
  intros Hin.
  assert (Hne : weather_by_ts ≠ []).
  { intros ->. by apply elem_of_nil in Hin. }
  destruct (closest_ts_is_Some weather_by_ts p_ts Hne) as [c Hc].
  destruct (closest_ts_spec _ _ _ Hc) as [_ Hmin].
  specialize (Hmin p_ts Hin). rewrite Hc. f_equal. lia.
Qed.

(** X11 on a reading at 200 and weather at 100, 200 and 300. *)
Lemma closest_ts_exact_witness :
  closest_ts [(100, weather_at 100); (200, weather_at 200); (300, weather_at 300)] 200
  = Some 200.
Proof.
  apply closest_ts_exact. right. left.
Defined.

(** ** Merging the two sets of features *)

Lemma pollutant_prefix_inj (k1 k2 : string) :
  "pollutant_" +:+ k1 = "pollutant_" +:+ k2 → k1 = k2.
Proof. intros Heq. simpl in Heq. by injection Heq. Qed.

(** X12: in a merged row every pollutant feature but ["timestamp"] sits
    under its name prefixed with ["pollutant_"], also when a weather
    feature had that name; the pollutant ["timestamp"] is dropped; and
    every other key holds what the weather features hold. *)
Theorem merge_features_keys (weather_features pollutant_features : record) :
  (∀ k v, k ≠ "timestamp" → pollutant_features !! k = Some v →
          merge_features weather_features pollutant_features !! ("pollutant_" +:+ k)
          = Some v) ∧
  (∀ j, (∀ k, j = "pollutant_" +:+ k →
              k = "timestamp" ∨ pollutant_features !! k = None) →
        merge_features weather_features pollutant_features !! j
        = weather_features !! j).
Proof.
  unfold merge_features.
  apply (map_fold_weak_ind
    (λ merged (m : record),
       (∀ k v, k ≠ "timestamp" → m !! k = Some v →
               merged !! ("pollutant_" +:+ k) = Some v) ∧
       (∀ j, (∀ k, j = "pollutant_" +:+ k → k = "timestamp" ∨ m !! k = None) →
             merged !! j = weather_features !! j))).
  - split; [by intros k v _ ? | done].
  - intros i x m merged Hi [IHa IHb]. split.
    + intros k v Hk Hkv.
      destruct (decide (i = k)) as [->|Hik].
      * rewrite lookup_insert_eq in Hkv. injection Hkv as ->.
        rewrite decide_False by done. apply lookup_insert_eq.
      * rewrite lookup_insert_ne in Hkv by done.
        case_decide; [by apply IHa |].
        rewrite lookup_insert_ne; [by apply IHa |].
        intros Heq%pollutant_prefix_inj. done.
    + intros j Hj.
      assert (Hm : ∀ k, j = "pollutant_" +:+ k → k = "timestamp" ∨ m !! k = None).
      { intros k Hjk. destruct (Hj k Hjk) as [?|Hnone]; [by left |].
        destruct (decide (i = k)) as [->|Hik].
        - by rewrite lookup_insert_eq in Hnone.
        - right. by rewrite lookup_insert_ne in Hnone. }
      case_decide as Hts; [by apply IHb |].
      rewrite lookup_insert_ne; [by apply IHb |].
      intros Heq. destruct (Hj i (eq_sym Heq)) as [?|Hnone]; [done |].
      by rewrite lookup_insert_eq in Hnone.
Qed.

(** A row with nothing to merge is the weather features alone. *)
Lemma merge_features_empty (weather_features : record) :
  merge_features weather_features ∅ = weather_features.
Proof. unfold merge_features. apply map_fold_empty. Qed.

(** ** The table, whatever the feature computers *)

Lemma drop_duplicates_last_length (l : dataframe) :
  (length (drop_duplicates_last l) ≤ length l)%nat.
Proof.
  induction l as [|r l IH]; simpl; [done |].
  destruct (existsb _ l); simpl; lia.
Qed.

Lemma tsdict_set_length (d : tsdict) (k : Z) (v : record) :
  (length (tsdict_set d k v) ≤ S (length d))%nat.
Proof.
  induction d as [|[k0 v0] d IH]; simpl; [done |].
  case_decide; simpl; lia.
Qed.

Lemma index_by_length (key : record → option Z) (d d' : tsdict) (l : list record) :
  index_by key d l = Some d' → (length d' ≤ length d + length l)%nat.
Proof.
  revert d. induction l as [|r l IH]; intros d; simpl.
  - intros [= ->]. lia.
  - destruct (key r) as [k|]; [| done]. intros Hd'.
    specialize (IH _ Hd'). pose proof (tsdict_set_length d k r). lia.
Qed.

Lemma has_column_row_ts (df : dataframe) :
  has_column df "timestamp" = false → Forall (λ r, row_ts r = None) df.
Proof.
  unfold has_column. intros Hcol. apply Forall_forall. intros r Hr.
  unfold row_ts, timestamp_of.
  destruct (r !! "timestamp") as [v|] eqn:Hv; [| done].
  exfalso. apply not_true_iff_false in Hcol. apply Hcol.
  apply existsb_exists. exists r. split; [by apply list_elem_of_In |].
  apply bool_decide_eq_true. by rewrite Hv.
Qed.

Section TableAnyFeatures.
Context `{PyParsers} `{FeatureComputers} `{SortValues}.
Variable fetch : nat → Z → fetched.

Lemma finish_table_length (rows : dataframe) :
  (length (finish_table rows) ≤ length rows)%nat.
Proof.
  unfold finish_table. destruct (has_column rows "timestamp"); [| done].
  unfold sort_dedup.
  pose proof (drop_duplicates_last_length (sort_values rows)) as Hle.
  pose proof (Permutation_length (sort_values_perm rows)) as Hlen.
  lia.
Qed.

(** X13: for weather records with integer timestamps, when the weather
    feature computer leaves an integer or nothing under [timestamp], be it
    the timestamp of the record or another integer, a table that the run
    returns never has more rows than there
    were weather records, its [timestamp] cells are integers or missing,
    and when it has a [timestamp] column its rows are in ascending order of
    timestamp with no timestamp twice. *)
Theorem backfill_table_sorted_distinct (ws : list record) (df : dataframe)
    (tr : list event) :
  Forall has_timestamp ws →
  Forall (λ w, int_or_missing
                 (compute_weather_features (clean_weather_record w) !! "timestamp"))
         ws →
  run_combined_backfill (Some ws) fetch [] = (Some df, tr) →
  (length df ≤ length ws)%nat ∧
  Forall (λ row, int_or_missing (row !! "timestamp")) df ∧
  (has_column df "timestamp" = true →
   Sorted row_le df ∧ NoDup (row_ts <$> df)).
Proof.
  intros _ Hcells Hrun.
  destruct (run_combined_backfill_returns fetch ws df tr Hrun)
    as (wbt & pbt & precs & tr' & Hwbt & Hdf & _).
  pose proof (merged_rows_cells ws wbt pbt precs Hwbt Hcells) as Hrows.
  set (rows := ms_merged <$> merge_steps wbt pbt precs) in *.
  split; [| split].
  - rewrite Hdf. etrans; [apply finish_table_length |].
    unfold rows, merge_steps, sorted_items.
    rewrite !length_fmap, enumerate_length.
    rewrite (Permutation_length (merge_sort_Permutation item_le wbt)).
    by apply (index_by_length _ _ _ _ Hwbt).
  - apply Forall_forall. intros row Hrow. rewrite Hdf in Hrow.
    apply finish_table_elem_of in Hrow.
    by apply (proj1 (Forall_forall _ _) Hrows).
  - rewrite Hdf. unfold finish_table.
    destruct (has_column rows "timestamp") eqn:Hcol.
    + intros _. destruct (sort_dedup_sorted rows) as [Hsorted Hnd].
      split; [by apply StronglySorted_Sorted | done].
    + by rewrite Hcol.
Qed.
End TableAnyFeatures.

(** X13 on weather records at 200, 100 and 200 again. *)
Lemma backfill_table_sorted_distinct_witness :
  ∃ df tr,
    @run_combined_backfill no_text keep_features merge_sort_values
      (Some [weather_at 200; weather_at 100; weather_at 200]) first_day_fails []
    = (Some df, tr) ∧
    (length df ≤ 3)%nat ∧
    Forall (λ row, int_or_missing (row !! "timestamp")) df.
Proof.
  destruct (@run_combined_backfill no_text keep_features merge_sort_values
              (Some [weather_at 200; weather_at 100; weather_at 200])
              first_day_fails []) as [[df|] tr] eqn:Hrun.
  - exists df, tr. split; [reflexivity |].
    destruct (@backfill_table_sorted_distinct no_text keep_features
                merge_sort_values first_day_fails
                [weather_at 200; weather_at 100; weather_at 200] df tr)
      as (Hlen & Hcells & _).
    + repeat constructor; by eexists.
    + repeat (apply Forall_cons; split; [vm_compute; exact I |]).
      constructor.
    + exact Hrun.
    + split; [exact Hlen | exact Hcells].
  - exfalso.
    apply (f_equal (λ out : option dataframe * list event, is_Some_proj out.1)) in Hrun.
    vm_compute in Hrun. discriminate Hrun.
Defined.

(** ** Malformed and empty weather *)

Section EdgeRuns.
Context `{PyParsers} `{FeatureComputers} `{SortValues}.
Variable fetch : nat → Z → fetched.

(** X14: a weather record without a [timestamp] key makes the run raise
    (the subscript is outside every [try]) before any pollutant fetch: no
    call, no tally, no file.  No weather record at all is not an error:
    the run logs a tally of 0 and 0, writes the empty table and returns
    it. *)
Theorem backfill_missing_timestamp_raises (ws : list record) (w : record)
    (tr : list event) :
  w ∈ ws → w !! "timestamp" = None →
  run_combined_backfill (Some ws) fetch tr = (None, tr ++ [CallFetchWeather]) ∧
  run_combined_backfill (Some []) fetch tr
  = (Some [], tr ++ [CallFetchWeather; LogTally 0 0; ToCsv []]).
Proof.
  intros Hin Hw. split.
  - unfold run_combined_backfill, mbind, run_bind, emit at 1.
    rewrite collect_merge_steps_run.
    destruct (index_by timestamp_of [] ws) as [wbt|] eqn:Hwbt; [| done].
    exfalso.
    assert (Hall : Forall (λ r, is_Some (timestamp_of r)) ws).
    { apply (index_by_returns timestamp_of []). by rewrite Hwbt. }
    rewrite Forall_forall in Hall. destruct (Hall w Hin) as [ts Hts].
    unfold timestamp_of in Hts. by rewrite Hw in Hts.
  - unfold run_combined_backfill, mbind, run_bind, emit at 1.
    rewrite collect_merge_steps_run. simpl.
    unfold emit, mret, run_ret. simpl.
    change (finish_table []) with (@nil record).
    by rewrite <- !app_assoc.
Qed.

(** X15: when every pollutant fetch fails, the run still returns: every
    day is asked for, the tally is 0 successes and as many failures as
    days, and each row is the weather features of its day alone, with no
    pollutant feature. *)
Theorem backfill_without_pollutants (ws : list record) :
  Forall has_timestamp ws →
  (∀ rank ts, fetch rank ts = FetchRaises ∨
              ∃ raw_p, fetch rank ts = FetchReturns raw_p ∧ usable raw_p = false) →
  ∃ weather_by_ts,
    index_by timestamp_of [] ws = Some weather_by_ts ∧
    let df := finish_table
                ((λ kv, compute_weather_features (clean_weather_record kv.2))
                   <$> sorted_items weather_by_ts) in
    run_combined_backfill (Some ws) fetch []
    = (Some df,
       CallFetchWeather :: fetch_trace (enumerate 1 ws)
         ++ [LogTally 0 (length ws); ToCsv df]).
Proof.
  intros Hall Hfail.
  destruct (proj1 (index_by_returns timestamp_of [] ws) Hall) as [wbt Hwbt].
  exists wbt. split; [done |]. cbv zeta.
  assert (Hnone : omap (day_record fetch) (enumerate 1 ws) = []).
  { generalize 1%nat. clear Hwbt.
    induction Hall as [|w ws [ts Hts] Hall IH]; intros n; csimpl; [done |].
    rewrite IH.
    assert (Hday : day_record fetch (n, w) = None).
    { apply (day_record_None fetch n w ts Hts). apply Hfail. }
    by rewrite Hday. }
  unfold run_combined_backfill, mbind, run_bind, emit at 1.
  rewrite collect_merge_steps_run, Hwbt. cbv zeta.
  unfold fetch_result. cbn [pollutant_records success failed].
  rewrite Hnone. cbn [index_by app length].
  rewrite enumerate_length, Nat.sub_0_r.
  assert (Hrows : ms_merged <$> merge_steps wbt [] []
    = (λ kv, compute_weather_features (clean_weather_record kv.2))
        <$> sorted_items wbt).
  { unfold merge_steps. generalize 0%nat.
    induction (sorted_items wbt) as [|[ts w] items IH]; intros n; csimpl; [done |].
    rewrite IH. f_equal; apply merge_features_empty. }
  rewrite Hrows. unfold emit, mret, run_ret. simpl.
  by rewrite <- app_assoc.
Qed.
End EdgeRuns.

(** A pollutant fetcher that always raises. *)
Definition always_fails : nat → Z → fetched := λ _ _, FetchRaises.

(** X14 on a day with a timestamp and a day without a field. *)
Lemma backfill_missing_timestamp_raises_witness :
  @run_combined_backfill no_text keep_features merge_sort_values
    (Some [weather_at 100; ∅]) first_day_fails []
  = (None, [CallFetchWeather]).
Proof.
  refine (proj1 (@backfill_missing_timestamp_raises no_text keep_features
                   merge_sort_values first_day_fails
                   [weather_at 100; ∅] ∅ [] _ _)).
  - right. left.
  - reflexivity.
Defined.

(** X15 on three days. *)
Lemma backfill_without_pollutants_witness :
  ∃ weather_by_ts df,
    index_by timestamp_of [] [weather_at 100; weather_at 200; weather_at 300]
    = Some weather_by_ts ∧
    @run_combined_backfill no_text keep_features merge_sort_values
      (Some [weather_at 100; weather_at 200; weather_at 300]) always_fails []
    = (Some df,
       CallFetchWeather
         :: fetch_trace (enumerate 1 [weather_at 100; weather_at 200; weather_at 300])
         ++ [LogTally 0 3; ToCsv df]).
Proof.
  destruct (@backfill_without_pollutants no_text keep_features merge_sort_values
              always_fails [weather_at 100; weather_at 200; weather_at 300]
              sample_days_have_timestamps)
    as (wbt & Hwbt & Hrun).
  - intros rank ts. by left.
  - exists wbt. eexists. split; [exact Hwbt | exact Hrun].
Defined.

(** ** The slice of history *)

(** X16: the history handed to the pollutant feature computer is never
    longer than ten records; it is the stretch of [pollutant_records] that
    ends just before the index, ten long when the index is at least ten
    and within the list, and an index beyond the list is no error. *)
Theorem hist_slice_window (pollutant_records : list record) (i : nat) :
  (length (hist_slice pollutant_records i) ≤ 10)%nat ∧
  ((i ≤ length pollutant_records)%nat →
   length (hist_slice pollutant_records i) = Nat.min i 10) ∧
  (∀ j r, hist_slice pollutant_records i !! j = Some r →
          pollutant_records !! (i - 10 + j)%nat = Some r ∧ (i - 10 + j < i)%nat).
Proof.
  assert (Hslice : hist_slice pollutant_records i
                   = drop (i - 10) (take i pollutant_records)).
  { unfold hist_slice. by destruct i. }
  rewrite Hslice. split; [| split].
  - rewrite length_drop, length_take. lia.
  - intros Hi. rewrite length_drop, length_take. lia.
  - intros j r Hj. rewrite lookup_drop in Hj.
    apply lookup_take_Some in Hj as [Hj Hlt]. done.
Qed.

(** ** A run without failures on ascending days *)

Lemma tsdict_set_fresh (d : tsdict) (k : Z) (v : record) :
  k ∉ tsdict_keys d → tsdict_set d k v = d ++ [(k, v)].
Proof.
  unfold tsdict_keys. induction d as [|[k0 v0] d IH]; csimpl; [done |].
  intros [Hne Hnin]%not_elem_of_cons.
  rewrite decide_False by done. by rewrite IH.
Qed.

(** Records that go under fresh, distinct timestamps are stored one after
    the other. *)
Lemma index_by_fresh (key : record → option Z) (l : list record) (ks : list Z)
    (d : tsdict) :
  key <$> l = Some <$> ks →
  NoDup (tsdict_keys d ++ ks) →
  index_by key d l = Some (d ++ zip ks l).
Proof.
  revert ks d. induction l as [|r l IH]; intros [|k ks] d Hkeys Hnd; try done.
  - simpl. by rewrite app_nil_r.
  - injection Hkeys as Hk Hkeys. simpl. rewrite Hk.
    apply NoDup_app in Hnd as (Hd & Hdisj & [Hk' Hks]%NoDup_cons).
    assert (Hfresh : k ∉ tsdict_keys d).
    { intros Hin. apply (Hdisj k Hin). left. }
    rewrite tsdict_set_fresh by done.
    rewrite (IH ks) ; [by rewrite <- app_assoc | done |].
    unfold tsdict_keys. rewrite fmap_app. csimpl.
    apply NoDup_app. split; [| split; [| done]].
    + apply NoDup_app. split; [done |]. split; [| apply NoDup_singleton].
      by intros x Hx ->%list_elem_of_singleton.
    + intros x [Hx| ->%list_elem_of_singleton]%elem_of_app Hin; [| done].
      apply (Hdisj x Hx). by right.
Qed.

Lemma fst_zip_same {A B} (l : list A) (k : list B) :
  length l = length k → (zip l k).*1 = l.
Proof.
  revert k. induction l as [|a l IH]; intros [|b k] Hlen; try done.
  csimpl. f_equal. apply IH. by injection Hlen.
Qed.

(** Items already in strictly ascending order of timestamp are left in
    place by [sorted]. *)
Lemma sorted_items_ascending (d : tsdict) :
  StronglySorted Z.lt (tsdict_keys d) → sorted_items d = d.
Proof.
  intros Hsorted. unfold sorted_items.
  assert (Htrans : Transitive item_le) by (intros a b c; unfold item_le; lia).
  assert (Htotal : Total item_le) by (intros a b; unfold item_le; lia).
  apply (Sorted_unique_strong item_le).
  - intros x1 x2 Hx1 Hx2 H12 H21.
    rewrite merge_sort_Permutation in Hx1.
    apply (NoDup_fmap_eq fst d); [| done | done | unfold item_le in *; lia].
    by apply StronglySorted_lt_NoDup.
  - by apply Sorted_merge_sort.
  - apply StronglySorted_Sorted. unfold tsdict_keys in Hsorted.
    induction d as [|[k v] d IH]; [constructor |].
    apply StronglySorted_inv in Hsorted as [Hd Hall].
    constructor; [by apply IH |].
    apply Forall_forall. intros [k' v'] Hin.
    assert (Hlt : k < k').
    { apply (proj1 (Forall_forall _ _) Hall).
      by apply (list_elem_of_fmap_2 fst d (k', v')). }
    unfold item_le. simpl. lia.
  - apply merge_sort_Permutation.
Qed.

Lemma usable_of_timestamp (r : record) (ts : Z) :
  timestamp_of r = Some ts → ts ≠ 0 → usable (Some r) = true.
Proof.
  unfold timestamp_of, usable, dict_truthy, dict_get. intros Hts Hne.
  destruct (r !! "timestamp") as [[| |z| | |]|] eqn:Hr; try done.
  injection Hts as ->. simpl.
  apply andb_true_iff. split.
  - apply negb_true_iff, Nat.eqb_neq.
    apply (map_size_ne_0_lookup_2 r "timestamp"). by rewrite Hr.
  - apply negb_true_iff, Z.eqb_neq. done.
Qed.

Lemma clean_pollutant_record_truthy `{PyParsers} (r : record) (ts : Z) :
  timestamp_of r = Some ts → dict_truthy (clean_pollutant_record r) = true.
Proof.
  unfold timestamp_of, dict_truthy. intros Hts.
  apply negb_true_iff, Nat.eqb_neq.
  apply (map_size_ne_0_lookup_2 _ "timestamp").
  rewrite clean_pollutant_record_lookup.
  destruct (r !! "timestamp"); [by eexists | done].
Qed.

Lemma closest_of_stamped (weather_by_ts : tsdict) (r : record) (ts : Z) :
  timestamp_of r = Some ts → ts ∈ tsdict_keys weather_by_ts →
  closest_of weather_by_ts r = Some ts.
Proof.
  intros Hts Hin. unfold closest_of. rewrite Hts.
  assert (Hne : weather_by_ts ≠ []).
  { intros ->. by apply elem_of_nil in Hin. }
  destruct (closest_ts_is_Some weather_by_ts ts Hne) as [c Hc].
  destruct (closest_ts_spec _ _ _ Hc) as [_ Hmin].
  specialize (Hmin ts Hin). rewrite Hc. f_equal. lia.
Qed.

(** The records fetched when every call answers with a reading stamped as
    asked: one per day, stamped like the days, in their order. *)
Lemma fetched_stamped (fetch : nat → Z → fetched) (ws : list record)
    (tss : list Z) (n : nat) :
  timestamp_of <$> ws = Some <$> tss →
  0 ∉ tss →
  (∀ rank ts, ∃ r, fetch rank ts = FetchReturns (Some r) ∧ timestamp_of r = Some ts) →
  timestamp_of <$> omap (day_record fetch) (enumerate (S n) ws) = Some <$> tss ∧
  ∀ i ts, tss !! i = Some ts →
          fetch (n + i)%nat ts
          = FetchReturns (omap (day_record fetch) (enumerate (S n) ws) !! i).
Proof.
  intros Hts H0 Hfetch. revert tss n Hts H0.
  induction ws as [|w ws IH]; intros [|ts tss] n Hts H0; try done.
  injection Hts as Hw Hts.
  apply not_elem_of_cons in H0 as [Hne H0].
  destruct (IH tss (S n) Hts H0) as [IHts IHfetch].
  destruct (Hfetch n ts) as (r & Hr & Hrts).
  assert (Hday : day_record fetch (S n, w) = Some r).
  { unfold day_record. simpl. rewrite Hw, Nat.sub_0_r, Hr.
    by rewrite (usable_of_timestamp r ts). }
  csimpl. rewrite Hday. csimpl. split.
  - by rewrite Hrts, IHts.
  - intros [|i] ts' Hi; simpl in *.
    + injection Hi as <-. by rewrite Nat.add_0_r.
    + rewrite <- (IHfetch i ts' Hi). f_equal. lia.
Qed.

(** X17: when the weather days come in strictly ascending order of
    non-zero timestamps and every pollutant fetch answers with a reading
    stamped as asked, the loops line up: the row of rank [i] is the day of
    rank [i], its matched record is the one fetched for that day, and its
    history is the records fetched for the (up to) ten days before it. *)
Theorem history_aligned_without_failures `{PyParsers} `{FeatureComputers}
    (fetch : nat → Z → fetched) (ws : list record) (tss : list Z) :
  timestamp_of <$> ws = Some <$> tss →
  StronglySorted Z.lt tss →
  0 ∉ tss →
  (∀ rank ts, ∃ r, fetch rank ts = FetchReturns (Some r) ∧ timestamp_of r = Some ts) →
  ∃ precs steps tr,
    collect_merge_steps fetch ws [] = (Some steps, tr) ∧
    length precs = length ws ∧ length steps = length ws ∧
    (∀ i ts, tss !! i = Some ts → fetch i ts = FetchReturns (precs !! i)) ∧
    (∀ i step, steps !! i = Some step →
       tss !! i = Some (ms_ts step) ∧
       ms_pollutant_raw step = precs !! i ∧
       ms_hist step = Some (drop (i - 10) (take i precs))).
Proof.
  intros Hts Hsorted Hnz Hfetch.
  pose proof (StronglySorted_lt_NoDup tss Hsorted) as Hnd.
  assert (Hlen : length ws = length tss).
  { by rewrite <- (length_fmap timestamp_of ws), Hts, length_fmap. }
  set (precs := omap (day_record fetch) (enumerate 1 ws)).
  destruct (fetched_stamped fetch ws tss 0 Hts Hnz Hfetch) as [Hpts Hpfetch].
  fold precs in Hpts, Hpfetch.
  assert (Hplen : length precs = length tss).
  { by rewrite <- (length_fmap timestamp_of precs), Hpts, length_fmap. }
  (* the two dictionaries *)
  assert (Hwbt : index_by timestamp_of [] ws = Some (zip tss ws)).
  { by rewrite (index_by_fresh timestamp_of ws tss []). }
  assert (Hkeys : tsdict_keys (zip tss ws) = tss).
  { unfold tsdict_keys. by apply fst_zip_same. }
  assert (Hclosest : closest_of (zip tss ws) <$> precs = Some <$> tss).
  { rewrite <- Hpts. apply list_eq. intros i. rewrite !list_lookup_fmap.
    destruct (precs !! i) as [r|] eqn:Hr; [| done]. simpl. f_equal.
    assert (Hrts : (timestamp_of <$> precs) !! i = Some (timestamp_of r)).
    { by rewrite list_lookup_fmap, Hr. }
    rewrite Hpts, list_lookup_fmap in Hrts.
    destruct (tss !! i) as [ts|] eqn:Hi; [| done]. injection Hrts as Hrts.
    rewrite <- Hrts. apply closest_of_stamped; [done |].
    rewrite Hkeys. by apply list_elem_of_lookup_2 in Hi. }
  assert (Hpbt : index_by (closest_of (zip tss ws)) [] precs = Some (zip tss precs)).
  { by rewrite (index_by_fresh _ precs tss []). }
  assert (Hitems : sorted_items (zip tss ws) = zip tss ws).
  { apply sorted_items_ascending. by rewrite Hkeys. }
  exists precs, (merge_steps (zip tss ws) (zip tss precs) precs). eexists.
  split.
  { rewrite collect_merge_steps_run, Hwbt. cbv zeta.
    unfold fetch_result. cbn [pollutant_records].
    fold precs. rewrite app_nil_l, Hpbt. reflexivity. }
  split; [lia |]. split.
  { unfold merge_steps. rewrite length_fmap, enumerate_length, Hitems.
    rewrite length_zip_with_l; lia. }
  split.
  { intros i ts Hi. by rewrite <- (Hpfetch i ts Hi). }
  intros i step Hstep.
  rewrite merge_steps_lookup, Hitems in Hstep.
  destruct (zip tss ws !! i) as [[ts w]|] eqn:Hi; [| done].
  injection Hstep as <-.
  apply lookup_zip_with_Some in Hi as (ts' & w' & [= -> ->] & Hts' & Hw').
  assert (Hr : ∃ r, precs !! i = Some r ∧ timestamp_of r = Some ts').
  { destruct (precs !! i) as [r|] eqn:Hr.
    - exists r. split; [done |].
      assert (Hrts : (timestamp_of <$> precs) !! i = Some (timestamp_of r)).
      { by rewrite list_lookup_fmap, Hr. }
      rewrite Hpts, list_lookup_fmap, Hts' in Hrts. by injection Hrts.
    - apply lookup_ge_None in Hr. apply lookup_lt_Some in Hts'. lia. }
  destruct Hr as (r & Hr & Hrts).
  assert (Hget : tsdict_get (zip tss precs) ts' = Some r).
  { apply tsdict_get_Some.
    - unfold tsdict_keys. by rewrite fst_zip_same.
    - apply list_elem_of_lookup. exists i.
      apply lookup_zip_with_Some. by exists ts', r. }
  unfold merge_row. cbn [ms_ts ms_pollutant_raw ms_hist].
  split; [done |]. split; [by rewrite Hget, Hr |].
  rewrite Hget.
  assert (Htruthy : dict_truthy r = true).
  { pose proof (clean_pollutant_record_truthy r ts' Hrts) as Hc.
    unfold dict_truthy in *. apply negb_true_iff, Nat.eqb_neq.
    apply (map_size_ne_0_lookup_2 r "timestamp").
    unfold timestamp_of in Hrts. destruct (r !! "timestamp"); [by eexists | done]. }
  rewrite Htruthy, (clean_pollutant_record_truthy r ts' Hrts).
  f_equal. unfold hist_slice. by destruct i.
Qed.

(** X17 on three days a day apart. *)
Lemma history_aligned_without_failures_witness :
  ∃ (precs : list record) steps tr,
    @collect_merge_steps no_text keep_features
      (λ _ ts, FetchReturns (Some (pollutant_at ts)))
      [weather_at 100; weather_at 200; weather_at 300] []
    = (Some steps, tr) ∧
    length precs = 3%nat ∧ length steps = 3%nat.
Proof.
  destruct (@history_aligned_without_failures no_text keep_features
              (λ _ ts, FetchReturns (Some (pollutant_at ts)))
              [weather_at 100; weather_at 200; weather_at 300] [100; 200; 300])
    as (precs & steps & tr & Hrun & Hp & Hs & _).
  - reflexivity.
  - repeat constructor; lia.
  - intros Hin. repeat (apply elem_of_cons in Hin as [Hin|Hin]; [discriminate Hin |]).
    by apply elem_of_nil in Hin.
  - intros rank ts. exists (pollutant_at ts). split; [reflexivity |].
    unfold timestamp_of, pollutant_at.
    by rewrite lookup_insert_eq.
  - exists precs, steps, tr. by split.
Defined.

(** ** Pollutant records that lose their weather timestamp *)

Lemma day_record_truthy (fetch : nat → Z → fetched) (days : list (nat * record))
    (r : record) :
  r ∈ omap (day_record fetch) days → dict_truthy r = true.
Proof.
  intros Hr. apply list_elem_of_omap in Hr as (iw & _ & Hday).
  unfold day_record in Hday.
  destruct (timestamp_of iw.2) as [ts|]; [| done].
  destruct (fetch _ ts) as [|raw_p]; [done |].
  destruct (usable raw_p) eqn:Hu; [| done]. subst raw_p.
  unfold usable in Hu. by apply andb_true_iff in Hu as [? _].
Qed.

(** C10, as the code has it: the matching step stores at most one
    pollutant record under a weather timestamp, namely the last fetched of
    those whose nearest weather timestamp it is, and the row of a weather
    timestamp takes its pollutant record from there.  A record that lost
    its place to a later one is stored under no timestamp and is the
    matched record of no row; it stays in [pollutant_records], though, and
    the features of a row are computed from its matched record and from the
    slice of [pollutant_records] before the rank of the row, the displaced
    records of that slice with the others. *)
Theorem pollutant_matching_displaced_records `{PyParsers} `{FeatureComputers}
    (fetch : nat → Z → fetched) (ws : list record) :
  let pollutant_records := omap (day_record fetch) (enumerate 1 ws) in
  Forall has_timestamp ws →
  Forall has_timestamp pollutant_records →
  ∃ weather_by_ts pollutant_by_ts steps tr,
    index_by timestamp_of [] ws = Some weather_by_ts ∧
    collect_merge_steps fetch ws [] = (Some steps, tr) ∧
    NoDup (tsdict_keys pollutant_by_ts) ∧
    (∀ c, tsdict_get pollutant_by_ts c =
          last (filter (λ r, closest_of weather_by_ts r = Some c) pollutant_records)) ∧
    (∀ c r, tsdict_get pollutant_by_ts c = Some r →
            c ∈ tsdict_keys weather_by_ts ∧
            ∃ p_ts, timestamp_of r = Some p_ts ∧
                    ∀ t, t ∈ tsdict_keys weather_by_ts →
                         Z.abs (c - p_ts) ≤ Z.abs (t - p_ts)) ∧
    (∀ i step, steps !! i = Some step →
       ∃ w,
         sorted_items weather_by_ts !! i = Some (ms_ts step, w) ∧
         ms_pollutant_raw step = tsdict_get pollutant_by_ts (ms_ts step) ∧
         match ms_pollutant_raw step with
         | Some p =>
             ms_hist step = Some (hist_slice pollutant_records i) ∧
             ms_merged step =
               merge_features
                 (compute_weather_features (clean_weather_record w))
                 (compute_pollutant_features (clean_pollutant_record p)
                    (hist_slice pollutant_records i))
         | None =>
             ms_hist step = None ∧
             ms_merged step = compute_weather_features (clean_weather_record w)
         end) ∧
    (∀ r c, r ∈ pollutant_records →
            closest_of weather_by_ts r = Some c →
            last (filter (λ r', closest_of weather_by_ts r' = Some c) pollutant_records)
              ≠ Some r →
            (∀ t, tsdict_get pollutant_by_ts t ≠ Some r) ∧
            (∀ step, step ∈ steps → ms_pollutant_raw step ≠ Some r)).
Proof.
  intros precs Hws Hprecs.
  destruct (proj1 (index_by_returns timestamp_of [] ws) Hws) as [wbt Hwbt].
  assert (Hsome : is_Some (index_by (closest_of wbt) [] precs)).
  { apply index_by_returns.
    destruct (decide (ws = [])) as [->|Hne]; [constructor |].
    eapply Forall_impl; [exact Hprecs |]. intros r Hr.
    apply closest_of_is_Some; [| done].
    by apply (index_by_nonempty timestamp_of [] wbt ws). }
  destruct Hsome as [pbt Hpbt].
  assert (Hget : ∀ c, tsdict_get pbt c =
    last (filter (λ r, closest_of wbt r = Some c) precs)).
  { intros c. rewrite (index_by_get _ _ _ _ c Hpbt). simpl.
    by destruct (last _). }
  assert (Hkey : ∀ c r, tsdict_get pbt c = Some r →
                        closest_of wbt r = Some c ∧ r ∈ precs).
  { intros c r. rewrite Hget. intros Hlast%last_Some_elem_of.
    by apply list_elem_of_filter in Hlast as [? ?]. }
  exists wbt, pbt, (merge_steps wbt pbt precs). eexists.
  split; [done |]. split.
  { rewrite collect_merge_steps_run, Hwbt. cbv zeta.
    unfold fetch_result. cbn [pollutant_records].
    fold precs. rewrite app_nil_l, Hpbt. reflexivity. }
  split; [apply (index_by_NoDup _ _ _ _ Hpbt); constructor |].
  split; [exact Hget |].
  split; [| split].
  - intros c r Hr. apply Hkey in Hr as [Hr _]. unfold closest_of in Hr.
    destruct (timestamp_of r) as [p_ts|]; [| done].
    destruct (closest_ts_spec _ _ _ Hr) as [Hin Hmin].
    split; [done |]. by exists p_ts.
  - intros i step Hstep. rewrite merge_steps_lookup in Hstep.
    destruct (sorted_items wbt !! i) as [[t w]|] eqn:Hi; [| done].
    injection Hstep as <-. exists w.
    unfold merge_row. cbn [ms_ts ms_pollutant_raw ms_hist ms_merged fst snd].
    split; [done |]. split; [done |].
    destruct (tsdict_get pbt t) as [p|] eqn:Hp.
    + destruct (Hkey t p Hp) as [Hc Hin].
      assert (Htruthy : dict_truthy p = true).
      { by apply (day_record_truthy fetch (enumerate 1 ws)). }
      assert (Hpts : ∃ p_ts, timestamp_of p = Some p_ts).
      { unfold closest_of in Hc. destruct (timestamp_of p); [by eexists | done]. }
      destruct Hpts as [p_ts Hpts].
      by rewrite Htruthy, (clean_pollutant_record_truthy p p_ts Hpts).
    + split; [done |]. apply merge_features_empty.
  - intros r c Hr Hc Hlost.
    assert (Hno : ∀ t, tsdict_get pbt t ≠ Some r).
    { intros t Ht. destruct (Hkey t r Ht) as [Hc' _].
      assert (t = c) as -> by congruence.
      by rewrite Hget in Ht. }
    split; [exact Hno |].
    intros step Hstep Hraw.
    apply list_elem_of_lookup in Hstep as [i Hstep].
    rewrite merge_steps_lookup in Hstep.
    destruct (sorted_items wbt !! i) as [[t w]|]; [| done].
    injection Hstep as <-.
    by apply (Hno t).
Qed.

Lemma nearby_readings_fetched :
  omap (day_record nearby_readings)
       (enumerate 1 [weather_at 100; weather_at 200; weather_at 300])
  = [pollutant_at 190; pollutant_at 205; pollutant_at 290].
Proof.
  vm_cast_no_check
    (@eq_refl (list record) [pollutant_at 190; pollutant_at 205; pollutant_at 290]).
Defined.

(** C10 on weather at 100, 200 and 300 seconds and readings fetched at
    190, 205 and 290: the run returns, and the matching stores no
    timestamp twice. *)
Lemma pollutant_matching_displaced_records_witness :
  ∃ weather_by_ts pollutant_by_ts steps tr,
    index_by timestamp_of [] [weather_at 100; weather_at 200; weather_at 300]
      = Some weather_by_ts ∧
    @collect_merge_steps no_text lag_features nearby_readings
      [weather_at 100; weather_at 200; weather_at 300] []
      = (Some steps, tr) ∧
    NoDup (tsdict_keys pollutant_by_ts).
Proof.
  destruct (@pollutant_matching_displaced_records no_text lag_features
              nearby_readings [weather_at 100; weather_at 200; weather_at 300])
    as (wbt & pbt & steps & tr & Hwbt & Hrun & Hnd & _).
  - exact sample_days_have_timestamps.
  - rewrite nearby_readings_fetched. repeat constructor; by eexists.
  - exists wbt, pbt, steps, tr.
    split; [exact Hwbt |]. split; [exact Hrun | exact Hnd].
Defined.

(** C10 as it was worded fails on the code.  Weather at 100, 200 and 300
    seconds, readings fetched at 190, 205 and 290: the readings at 190 and
    205 are both nearest to 200, and the one at 205, fetched later, is the
    matched record of the row at 200.  The reading at 190 is the matched
    record of no row, and yet it is the history handed to the feature
    computation of the row at 200, whose lag feature in the merged row is
    the timestamp 190; it is in the history of the row at 300 as well. *)
Lemma displaced_record_in_history :
  closest_of [(100, weather_at 100); (200, weather_at 200); (300, weather_at 300)]
             (pollutant_at 190) = Some 200 ∧
  closest_of [(100, weather_at 100); (200, weather_at 200); (300, weather_at 300)]
             (pollutant_at 205) = Some 200 ∧
  fmap (M := option) (fmap (M := list) step_lag)
    (@collect_merge_steps no_text lag_features nearby_readings
       [weather_at 100; weather_at 200; weather_at 300] []).1
  = Some [ (100, None, None, None);
           (200, Some (pollutant_at 205), Some [pollutant_at 190],
                 Some (VInt 190));
           (300, Some (pollutant_at 290),
                 Some [pollutant_at 190; pollutant_at 205],
                 Some (VInt 205)) ].
Proof.
  split; [reflexivity |]. split; [reflexivity |].
  vm_cast_no_check
    (@eq_refl (option (list (Z * option record * option (list record) * option pyval)))
       (Some [ (100, None, None, None);
               (200, Some (pollutant_at 205), Some [pollutant_at 190],
                     Some (VInt 190));
               (300, Some (pollutant_at 290),
                     Some [pollutant_at 190; pollutant_at 205],
                     Some (VInt 205)) ])).
Qed.

(** * src/run_year_backfill.py *)

Module YearBackfill.

(** What [main] does to the outside: the events of the run it calls, and of
    its own log lines the verdict, the number of records and the range of
    dates. *)
Inductive main_event : Type :=
  | RunEvent (e : event)
  | LogFailed
  | LogRecords (n : nat)
  | LogDateRange (first last : option Z).

(** [df.empty]: no row, or no column. *)
Definition df_empty (df : dataframe) : bool :=
  forallb (λ row, Nat.eqb (size row) 0) df.

(** [df['timestamp'].min()] and [.max()], NaN left aside; [None] when the
    column holds no number. *)
Definition ts_min (df : dataframe) : option Z :=
  match omap row_ts df with
  | [] => None
  | t :: ts => Some (foldr Z.min t ts)
  end.

Definition ts_max (df : dataframe) : option Z :=
  match omap row_ts df with
  | [] => None
  | t :: ts => Some (foldr Z.max t ts)
  end.

Section Main.
Context `{PyParsers} `{FeatureComputers} `{SortValues}.
Variable fetch_openmeteo_bulk : option (list record).
Variable fetch_pollutant_historical : nat → Z → fetched.

(** [main], once the configuration is loaded; [None] is an exception that
    leaves it. *)
Definition main : option unit * list main_event :=
  let '(result, tr) :=
    run_combined_backfill fetch_openmeteo_bulk fetch_pollutant_historical [] in
  let tr := RunEvent <$> tr in
  match result with
  | None => (None, tr)
  | Some df =>
      if df_empty df then (Some (), tr ++ [LogFailed])
      else
        let tr := tr ++ [LogRecords (length df)] in
        (* df['timestamp'] raises KeyError without the column *)
        if has_column df "timestamp"
        then (Some (), tr ++ [LogDateRange (ts_min df) (ts_max df)])
        else (None, tr)
  end.
End Main.

End YearBackfill.

Import YearBackfill.

Section MainFacts.
Context `{PyParsers} `{FeatureComputers} `{SortValues}.
Variable fetch : nat → Z → fetched.

(** The timestamps of a returned table, when the weather feature computer
    hands the timestamp on. *)
Lemma returned_table_timestamps (ws : list record) (df : dataframe)
    (tr : list event) :
  (∀ rec, timestamp_of (compute_weather_features rec) = timestamp_of rec) →
  run_combined_backfill (Some ws) fetch [] = (Some df, tr) →
  ∃ weather_by_ts,
    index_by timestamp_of [] ws = Some weather_by_ts ∧
    row_ts <$> df = Some <$> (sorted_items weather_by_ts).*1.
Proof.
  intros Hfeat Hrun.
  destruct (run_combined_backfill_returns fetch ws df tr Hrun)
    as (wbt & pbt & precs & tr' & Hwbt & Hdf & _).
  exists wbt. split; [done |].
  assert (Hnd : NoDup (tsdict_keys wbt)).
  { apply (index_by_NoDup _ _ _ _ Hwbt). constructor. }
  assert (Hkey : Forall (λ kv, timestamp_of kv.2 = Some kv.1) wbt).
  { apply (index_by_key _ _ _ _ Hwbt). constructor. }
  destruct (sorted_items_spec wbt Hnd) as [Hperm Hsorted].
  pose proof (merge_steps_row_ts Hfeat wbt pbt precs Hkey) as Hrows.
  destruct (rows_ascending _ _ Hrows Hsorted) as [Hrsorted Hrnd].
  rewrite Hdf. unfold finish_table.
  destruct (has_column _ "timestamp"); [| done].
  by rewrite sort_dedup_fixed.
Qed.

(** X18: the yearly script reports failure and ends without an exception
    when the weather fetch raises (nothing was written) and when it returns
    no day (the empty table was written); and when the weather feature
    computer hands the timestamp on, a run over at least one day that
    returns ends the script with the number of rows and the range of dates
    logged, no exception. *)
Theorem main_reports_outcome (ws : list record) (df : dataframe)
    (tr : list event) :
  main None fetch = (Some (), [RunEvent CallFetchWeather; LogFailed]) ∧
  main (Some []) fetch
  = (Some (), [RunEvent CallFetchWeather; RunEvent (LogTally 0 0);
               RunEvent (ToCsv []); LogFailed]) ∧
  ((∀ rec, timestamp_of (compute_weather_features rec) = timestamp_of rec) →
   ws ≠ [] →
   run_combined_backfill (Some ws) fetch [] = (Some df, tr) →
   main (Some ws) fetch
   = (Some (), (RunEvent <$> tr)
               ++ [LogRecords (length df); LogDateRange (ts_min df) (ts_max df)])).
Proof.
  split; [done |]. split; [done |].
  intros Hfeat Hne Hrun.
  destruct (returned_table_timestamps ws df tr Hfeat Hrun) as (wbt & Hwbt & Hts).
  unfold main. rewrite Hrun.
  assert (Hitems : sorted_items wbt ≠ []).
  { intros Hnil.
    apply (index_by_nonempty _ _ _ _ Hwbt Hne).
    apply Permutation_nil_r. rewrite <- Hnil. unfold sorted_items.
    by rewrite merge_sort_Permutation. }
  destruct (sorted_items wbt) as [|[t w] items] eqn:Hsi; [done |].
  destruct df as [|row df]; [done |].
  injection Hts as Hrow Hrest.
  assert (Hkey : is_Some (row !! "timestamp")).
  { unfold row_ts, timestamp_of in Hrow.
    destruct (row !! "timestamp"); [by eexists | done]. }
  assert (Hempty : df_empty (row :: df) = false).
  { unfold df_empty. simpl. apply andb_false_iff. left.
    apply Nat.eqb_neq. by apply (map_size_ne_0_lookup_2 row "timestamp"). }
  assert (Hcol : has_column (row :: df) "timestamp" = true).
  { unfold has_column. simpl. apply orb_true_iff. left.
    by apply bool_decide_eq_true. }
  rewrite Hempty, Hcol. by rewrite <- app_assoc.
Qed.
End MainFacts.

(** X18 on weather at 200, 100 and 200 again. *)
Lemma main_reports_outcome_witness :
  ∃ df tr,
    @main no_text keep_features merge_sort_values
      (Some [weather_at 200; weather_at 100; weather_at 200]) first_day_fails
    = (Some (), (RunEvent <$> tr)
                ++ [LogRecords (length df); LogDateRange (ts_min df) (ts_max df)]).
Proof.
  destruct (@run_combined_backfill no_text keep_features merge_sort_values
              (Some [weather_at 200; weather_at 100; weather_at 200])
              first_day_fails []) as [[df|] tr] eqn:Hrun.
  - exists df, tr.
    apply (proj2 (proj2 (@main_reports_outcome no_text keep_features
                           merge_sort_values first_day_fails
                           [weather_at 200; weather_at 100; weather_at 200] df tr))).
    + reflexivity.
    + discriminate.
    + exact Hrun.
  - exfalso.
    apply (f_equal (λ out : option dataframe * list event, is_Some_proj out.1)) in Hrun.
    vm_compute in Hrun. discriminate Hrun.
Defined.
